(** * Ladder score: the scoring pipeline of [ladder_score/ladder.py]

    The script reads three tables (players, maps, records), computes one
    score per record, folds the scores into per-map and per-player totals,
    sorts both by descending score and writes two CSV reports.

    The Python arithmetic is duck-typed; the embedding is written once over
    a small numeric signature and instantiated twice:
    - [binary64]: IEEE-754 doubles (Rocq's primitive floats), which is what
      CPython runs.  [math.log10] and C's [pow] come from the platform's
      libm and are taken as parameters.
    - [exactR]: the real numbers, the exact arithmetic in which the
      formulas of the specification are written.

    Part I is the program, Part II the vocabulary of the statements and the
    examples, Part III the lemmas, Part IV the properties the
    specification claims, Part V further properties of the script. *)

From Stdlib Require Import String.
From Stdlib Require Import ZArith List Bool Lia.
From Stdlib Require Import Permutation Sorted.
From Stdlib Require Import DecimalString.
From Stdlib Require Import Floats.
From Stdlib Require Import Reals Lra.
Import ListNotations.

Local Open Scope Z_scope.
Local Open Scope list_scope.

(** * Part I: the program *)

(** ** Numbers *)

(** What the script needs from a float: conversion from [int], the four
    operations and [<] (the only comparison [min], [max] and [list.sort]
    use). *)
Class Arith (F : Type) : Type := {
  of_int : Z -> F;
  fadd : F -> F -> F;
  fsub : F -> F -> F;
  fmul : F -> F -> F;
  fdiv : F -> F -> F;
  flt : F -> F -> bool
}.

(** The two libm entry points: [math.log10 x] and [x ** n] with an [int]
    literal [n] (CPython converts [n] to a float and calls C's [pow]). *)
Class Libm (F : Type) : Type := {
  log10 : F -> F;
  fpow : F -> Z -> F
}.

Declare Scope num_scope.
Delimit Scope num_scope with num.
Infix "[+]" := fadd (at level 50, left associativity) : num_scope.
Infix "[-]" := fsub (at level 50, left associativity) : num_scope.
Infix "[*]" := fmul (at level 40, left associativity) : num_scope.
Infix "[/]" := fdiv (at level 40, left associativity) : num_scope.
Infix "[<?]" := flt (at level 70, no associativity) : num_scope.
Local Open Scope num_scope.

(** ** Python built-ins *)

Section Builtins.
Context {F : Type} {num : Arith F}.

(** [min(a, b)]: [b] replaces [a] only when [b < a]. *)
Definition py_min (a b : F) : F := if b [<?] a then b else a.

(** [max(a, b)]: [b] replaces [a] only when [b > a]. *)
Definition py_max (a b : F) : F := if a [<?] b then b else a.

End Builtins.

(** A [dict] with [int] keys: an association list in insertion order.
    Assigning to a key that is present replaces the value in place. *)
Section Dict.
Context {V : Type}.

Definition dict : Type := list (Z * V).

Fixpoint dict_get (k : Z) (d : dict) : option V :=
  match d with
  | [] => None
  | (k', v) :: d' => if k =? k' then Some v else dict_get k d'
  end.

Fixpoint dict_set (k : Z) (v : V) (d : dict) : dict :=
  match d with
  | [] => [(k, v)]
  | (k', v') :: d' =>
      if k =? k' then (k', v) :: d' else (k', v') :: dict_set k v d'
  end.

Definition dict_mem (k : Z) (d : dict) : bool :=
  match dict_get k d with Some _ => true | None => false end.

Definition keys (d : dict) : list Z := map fst d.

(** [dict(zip(ids, rows))] with [ids = [key row for row in rows]]. *)
Definition dict_of_rows (key : V -> Z) (rows : list V) : dict :=
  fold_left (fun d row => dict_set (key row) row d) rows [].

End Dict.
Arguments dict V : clear implicits.

(** [list.sort(key=key, reverse=True)]: CPython's sort is stable, compares
    keys with [<] only and keeps equal keys in their original order under
    [reverse=True] too.  It is modelled by the insertion sort with those
    three properties: [x] moves past [y] only when [key x < key y]. *)
Section Sort.
Context {F : Type} {num : Arith F} {A : Type} (key : A -> F).

Fixpoint insert_desc (x : A) (l : list A) : list A :=
  match l with
  | [] => [x]
  | y :: l' => if key x [<?] key y then y :: insert_desc x l' else x :: l
  end.

Definition sort_desc (l : list A) : list A := fold_right insert_desc [] l.

End Sort.

(** ** Rows of the three tables *)

(** [players]: (id, login, name, ...). *)
Record PlayerRow : Type := { p_id : Z; p_login : string; p_name : string }.

(** [maps]: column 0 is the id and column 3 the display name. *)
Record MapRow : Type := { m_id : Z; m_name : string }.

(** [records]: (id, player_id, map_id, time in milliseconds, ...). *)
Record RecordRow : Type :=
  { r_id : Z; r_player_id : Z; r_map_id : Z; r_time : Z }.

(** What the cursor returns: the rows of [players] and [maps], and for a
    map id the rows of [SELECT * from records WHERE map_id = ... ORDER BY time]. *)
Record Snapshot : Type := {
  players_rows : list PlayerRow;
  maps_rows : list MapRow;
  records_by_time : Z -> list RecordRow
}.

(** ** The two aggregates *)

Module MapStat.
Record t (F : Type) : Type := mk {
  records_count : Z;
  min_record : F;
  average_record : F;
  median_record : F;
  max_record : F;
  score : F
}.
Arguments mk {F}.
Arguments records_count {F}.
Arguments min_record {F}.
Arguments average_record {F}.
Arguments median_record {F}.
Arguments max_record {F}.
Arguments score {F}.
End MapStat.

Module PlayerStat.
Record t (F : Type) : Type := mk { score : F }.
Arguments mk {F}.
Arguments score {F}.
End PlayerStat.

(** Both aggregates have a [score] attribute, which is all that
    [StatTupleKey] reads of them. *)
Class HasScore (F S : Type) : Type := score_of : S -> F.

#[export] Instance MapStat_has_score {F : Type} : HasScore F (MapStat.t F) :=
  MapStat.score.

#[export] Instance PlayerStat_has_score {F : Type}
  : HasScore F (PlayerStat.t F) :=
  PlayerStat.score.

(** ** Scoring engine *)

Section Engine.
Context {F : Type} {num : Arith F} {libm : Libm F}.

(** Lines 18-19: [record[3] / 1000.0], the [int] converted first. *)
Definition record_time_sec (record : RecordRow) : F :=
  of_int (r_time record) [/] of_int 1000.

(** Lines 21-24. [r] and [rn] are [int]s: [1000 * (rn * rn)] is computed on
    integers and converted by [math.log10]; [rn / r] is Python's true
    division, the quotient of the two converted operands (the same double
    for operands below 2^53). *)
Definition compute_score (r rn : Z) (t average : F) : F :=
  let score :=
    log10 (of_int (1000 * (rn * rn)))
    [+] log10 (fpow (average [-] t) 2 [+] of_int 1) in
  let score := score [*] fpow (log10 (of_int rn [/] of_int r [+] of_int 1)) 3 in
  score.

(** Lines 57-60: a fresh [MapStat] with [min], [max] and the count set. *)
Definition new_stats (first : RecordRow) (map_records : list RecordRow)
  : MapStat.t F :=
  MapStat.mk (Z.of_nat (length map_records))
    (record_time_sec first) (of_int 0) (of_int 0)
    (record_time_sec first) (of_int 0).

(** Lines 62-64: the body of the first loop. *)
Definition accumulate (stats : MapStat.t F) (record : RecordRow)
  : MapStat.t F :=
  MapStat.mk (MapStat.records_count stats)
    (py_min (MapStat.min_record stats) (record_time_sec record))
    (MapStat.average_record stats [+] record_time_sec record)
    (MapStat.median_record stats)
    (py_max (MapStat.max_record stats) (record_time_sec record))
    (MapStat.score stats).

(** Lines 57-66: the statistics of a map whose first record is [first]. *)
Definition map_stat (first : RecordRow) (map_records : list RecordRow)
  : MapStat.t F :=
  let stats := fold_left accumulate map_records (new_stats first map_records) in
  MapStat.mk (MapStat.records_count stats)
    (MapStat.min_record stats)
    (MapStat.average_record stats [/] of_int (MapStat.records_count stats))
    (record_time_sec
       (nth (length map_records / 2)%nat map_records first))
    (MapStat.max_record stats)
    (MapStat.score stats).

(** Lines 71-74: the score of the record at 0-based position [i_record]. *)
Definition record_score (stats : MapStat.t F) (i_record : nat)
    (record : RecordRow) : F :=
  let r := Z.of_nat i_record + 1 in
  let rn := MapStat.records_count stats in
  let t := py_max (record_time_sec record) (MapStat.average_record stats) in
  compute_score r rn t (MapStat.average_record stats).

(** Line 76: [stats.score += score]. *)
Definition add_map_score (stats : MapStat.t F) (score : F) : MapStat.t F :=
  MapStat.mk (MapStat.records_count stats) (MapStat.min_record stats)
    (MapStat.average_record stats) (MapStat.median_record stats)
    (MapStat.max_record stats) (MapStat.score stats [+] score).

(** Lines 78-80: get-or-insert the player's stat, then add the score. *)
Definition add_player_score (player_stats : dict (PlayerStat.t F))
    (player_id : Z) (score : F) : dict (PlayerStat.t F) :=
  let player_stats :=
    if dict_mem player_id player_stats then player_stats
    else dict_set player_id (PlayerStat.mk (of_int 0)) player_stats in
  match dict_get player_id player_stats with
  | Some ps =>
      dict_set player_id (PlayerStat.mk (PlayerStat.score ps [+] score))
        player_stats
  | None => player_stats
  end.

(** Lines 68-80: the body of the scoring loop. *)
Definition score_record
    (st : MapStat.t F * dict (PlayerStat.t F)) (ir : nat * RecordRow)
  : MapStat.t F * dict (PlayerStat.t F) :=
  let '(stats, player_stats) := st in
  let '(i_record, record) := ir in
  let score := record_score stats i_record record in
  (add_map_score stats score,
   add_player_score player_stats (r_player_id record) score).

(** The pairs [(i, l[i])] for [i in range(len(l))]. *)
Definition enumerate {A : Type} (l : list A) : list (nat * A) :=
  combine (seq 0 (length l)) l.

(** Lines 57-80: one map's statistics, then the scoring loop over
    [range(len(map_records))]. *)
Definition score_map (first : RecordRow) (map_records : list RecordRow)
    (player_stats : dict (PlayerStat.t F))
  : MapStat.t F * dict (PlayerStat.t F) :=
  fold_left score_record (enumerate map_records)
    (map_stat first map_records, player_stats).

(** [map_stats] and [player_stats]. *)
Definition Stats : Type := dict (MapStat.t F) * dict (PlayerStat.t F).

(** Lines 49-82: the body of the loop over [maps.items()]. *)
Definition process_map (fetch : Z -> list RecordRow) (st : Stats)
    (item : Z * MapRow) : Stats :=
  let '(map_stats, player_stats) := st in
  let map_id := fst item in
  let map_records := fetch map_id in
  match map_records with
  | [] => st
  | first :: _ =>
      let '(stats, player_stats) :=
        score_map first map_records player_stats in
      (dict_set map_id stats map_stats, player_stats)
  end.

(** Lines 41-44 and 35-39: the two tables keyed by id. *)
Definition maps_dict (db : Snapshot) : dict MapRow :=
  dict_of_rows m_id (maps_rows db).

Definition players_dict (db : Snapshot) : dict PlayerRow :=
  dict_of_rows p_id (players_rows db).

(** Lines 46-82: both aggregates after every map has been processed. *)
Definition all_stats (db : Snapshot) : Stats :=
  fold_left (process_map (records_by_time db)) (maps_dict db) ([], []).

(** ** Ranking *)

(** Lines 86-87: the sort key, [elem[1].score] of a [(key, stat)] item. *)
Definition StatTupleKey {S : Type} {has : HasScore F S} (elem : Z * S) : F :=
  score_of (snd elem).

(** Lines 88-92. *)
Definition sorted_player_stats (db : Snapshot) : list (Z * PlayerStat.t F) :=
  sort_desc StatTupleKey (snd (all_stats db)).

Definition sorted_map_stats (db : Snapshot) : list (Z * MapStat.t F) :=
  sort_desc StatTupleKey (fst (all_stats db)).

End Engine.

(** ** Report writer *)

Section Report.
Context {F : Type} {num : Arith F} {libm : Libm F}.
Local Open Scope string_scope.

(** How an f-string renders a float ([repr], the work of the C runtime). *)
Variable float_str : F -> string.

(** How an f-string renders an [int]. *)
Definition int_str (z : Z) : string := NilZero.string_of_int (Z.to_int z).

Definition comma : string := ",".
Definition newline : string := String (Ascii.ascii_of_nat 10) EmptyString.

Definition players_header : string := "id,login,name,score" ++ newline.

Definition maps_header : string :=
  "id,name,score,average_score,min_record,max_record,average_record,median_record,records_count"
  ++ newline.

(** Line 100. *)
Definition player_line (player : PlayerRow) (player_stats : PlayerStat.t F)
  : string :=
  int_str (p_id player) ++ comma ++ p_login player ++ comma
  ++ p_name player ++ comma
  ++ float_str (PlayerStat.score player_stats) ++ newline.

(** Lines 107-108. *)
Definition map_line (map : MapRow) (map_stats : MapStat.t F) : string :=
  let average :=
    MapStat.score map_stats [/] of_int (MapStat.records_count map_stats) in
  int_str (m_id map) ++ comma ++ m_name map ++ comma
  ++ float_str (MapStat.score map_stats) ++ comma
  ++ float_str average ++ comma
  ++ float_str (MapStat.min_record map_stats) ++ comma
  ++ float_str (MapStat.max_record map_stats) ++ comma
  ++ float_str (MapStat.average_record map_stats) ++ comma
  ++ float_str (MapStat.median_record map_stats) ++ comma
  ++ int_str (MapStat.records_count map_stats) ++ newline.

(** The rows of one report; [None] is the [KeyError] of a failed lookup,
    which ends the script. *)
Fixpoint write_rows {Row St : Type} (line : Row -> St -> string)
    (rows : dict Row) (sorted : list (Z * St)) : option string :=
  match sorted with
  | [] => Some EmptyString
  | (id, st) :: rest =>
      match dict_get id rows with
      | None => None
      | Some row =>
          match write_rows line rows rest with
          | None => None
          | Some text => Some (line row st ++ text)
          end
      end
  end.

Definition players_report (db : Snapshot) : option string :=
  match write_rows player_line (players_dict db) (sorted_player_stats db) with
  | None => None
  | Some rows => Some (players_header ++ rows)
  end.

Definition maps_report (db : Snapshot) : option string :=
  match write_rows map_line (maps_dict db) (sorted_map_stats db) with
  | None => None
  | Some rows => Some (maps_header ++ rows)
  end.

(** Lines 28-108: the two files, players first. *)
Definition main (db : Snapshot) : option (string * string) :=
  match players_report db with
  | None => None
  | Some players_csv =>
      match maps_report db with
      | None => None
      | Some maps_csv => Some (players_csv, maps_csv)
      end
  end.

End Report.

(** ** The two instances *)

(** [float(n)]: the nearest double, ties to even. *)
Definition Z2F (z : Z) : float :=
  SF2Prim (binary_normalize prec emax z 0 false).

#[export] Instance binary64 : Arith float := {|
  of_int := Z2F;
  fadd := PrimFloat.add;
  fsub := PrimFloat.sub;
  fmul := PrimFloat.mul;
  fdiv := PrimFloat.div;
  flt := PrimFloat.ltb
|}.

(** A libm for doubles, from its [log10] and its [pow]. *)
Definition libm64 (c_log10 : float -> float) (c_pow : float -> float -> float)
  : Libm float :=
  {| log10 := c_log10; fpow := fun x n => c_pow x (Z2F n) |}.

(** [<] on the reals, as a boolean. *)
Definition Rltb (x y : R) : bool := if Rlt_dec x y then true else false.

#[export] Instance exactR : Arith R := {|
  of_int := IZR;
  fadd := Rplus;
  fsub := Rminus;
  fmul := Rmult;
  fdiv := Rdiv;
  flt := Rltb
|}.

#[export] Instance libmR : Libm R := {|
  log10 := fun x => (ln x / ln 10)%R;
  fpow := powerRZ
|}.

(** * Part II: the vocabulary of the statements *)

(** ** For any arithmetic *)

Section Vocabulary.
Context {F : Type} {num : Arith F} {libm : Libm F}.
Implicit Types (stats : MapStat.t F).

(** The three terms of [compute_score], by the names the specification
    gives them. *)
Definition base_term (rn : Z) : F := log10 (of_int (1000 * (rn * rn))).

Definition deviation_term (t average : F) : F :=
  log10 (fpow (average [-] t) 2 [+] of_int 1).

Definition rank_decay (r rn : Z) : F :=
  fpow (log10 (of_int rn [/] of_int r [+] of_int 1)) 3.

(** The score as the specification writes it:
    [(log10(1000 * rn^2) + log10((average_record - t)^2 + 1)) * log10(rn/r + 1)^3]. *)
Definition score_formula (r rn : Z) (t average_record : F) : F :=
  (log10 (of_int (1000 * rn ^ 2))
   [+] log10 (fpow (average_record [-] t) 2 [+] of_int 1))
  [*] fpow (log10 (of_int rn [/] of_int r [+] of_int 1)) 3.

(** The same statistics with another running score. *)
Definition same_times stats stats' : Prop :=
  MapStat.records_count stats' = MapStat.records_count stats /\
  MapStat.min_record stats' = MapStat.min_record stats /\
  MapStat.average_record stats' = MapStat.average_record stats /\
  MapStat.median_record stats' = MapStat.median_record stats /\
  MapStat.max_record stats' = MapStat.max_record stats.

(** Every entry of [map_stats] is the finalized statistics of a map whose
    fetched records are not empty. *)
Definition finalized (fetch : Z -> list RecordRow) (map_id : Z) stats
  : Prop :=
  exists first rest ps,
    fetch map_id = first :: rest /\
    stats = fst (score_map first (first :: rest) ps).



(** Whether the cursor returns at least one record for the map. *)
Definition has_records (fetch : Z -> list RecordRow) (map_id : Z) : bool :=
  match fetch map_id with [] => false | _ :: _ => true end.

(** The [(player_id, score)] pairs the scoring loop of one map hands to
    [player_stats], in rank order. *)
Definition map_contributions (fetch : Z -> list RecordRow) (map_id : Z)
  : list (Z * F) :=
  match fetch map_id with
  | [] => []
  | first :: rest =>
      map (fun ir =>
             (r_player_id (snd ir),
              record_score (map_stat first (first :: rest)) (fst ir) (snd ir)))
        (enumerate (first :: rest))
  end.

(** The same pairs for the whole run, map after map. *)
Definition contributions (db : Snapshot) : list (Z * F) :=
  flat_map (fun item => map_contributions (records_by_time db) (fst item))
    (maps_dict db).

(** The scores of one player among such pairs, in order. *)
Definition scores_of (player_id : Z) (l : list (Z * F)) : list F :=
  map snd (filter (fun c => fst c =? player_id) l).

(** Lines 78-80 repeated over a list of pairs. *)
Definition add_contributions (player_stats : dict (PlayerStat.t F))
    (l : list (Z * F)) : dict (PlayerStat.t F) :=
  fold_left (fun ps c => add_player_score ps (fst c) (snd c)) l player_stats.

(** The running total of one player: absent, or a sum so far. *)
Definition add_to (o : option (PlayerStat.t F)) (score : F)
  : option (PlayerStat.t F) :=
  Some (PlayerStat.mk
          (match o with
           | Some v => PlayerStat.score v
           | None => of_int 0
           end [+] score)).

End Vocabulary.

(** The snapshot without the rows of one map. *)
Definition without_map (db : Snapshot) (map_id : Z) : Snapshot := {|
  players_rows := players_rows db;
  maps_rows := filter (fun m => negb (m_id m =? map_id)) (maps_rows db);
  records_by_time := records_by_time db
|}.

(** A dict without one of its keys. *)
Definition drop_key {V : Type} (k : Z) (d : dict V) : dict V :=
  filter (fun kv => negb (fst kv =? k)) d.

(** The ids of a list in the order they first appear. *)
Definition first_seen_from (seen l : list Z) : list Z :=
  fold_left
    (fun seen k => if existsb (Z.eqb k) seen then seen else seen ++ [k])
    l seen.

Definition first_seen (l : list Z) : list Z := first_seen_from [] l.

(** A record of which only the time is kept. *)
Definition time_only (record : RecordRow) : RecordRow :=
  {| r_id := 0; r_player_id := 0; r_map_id := 0; r_time := r_time record |}.

(** ** For doubles *)

Section Vocabulary64.
Local Open Scope float_scope.

(** The times of a map's records, in seconds, as fetched. *)
Definition seconds (db : Snapshot) (map_id : Z) : list float :=
  map record_time_sec (records_by_time db map_id).

(** [t1 <= t2 <= ... <= tn]: every two times in order compare with [<=]
    (so none is a NaN). *)
Definition ascending (t : list float) : Prop :=
  forall i j, (i <= j < length t)%nat -> (nth i t 0 <=? nth j t 0) = true.

Fixpoint ascendingb (t : list float) : bool :=
  match t with
  | [] => true
  | x :: t' => (x <=? x) && forallb (PrimFloat.leb x) t' && ascendingb t'
  end.

(** No score is a NaN. *)
Definition no_nan (scores : list float) : Prop :=
  Forall (fun s => (s =? s) = true) scores.

(** Every earlier score is [>=] every later one. *)
Definition descending (scores : list float) : Prop :=
  forall i j, (i < j < length scores)%nat ->
    (nth j scores 0 <=? nth i scores 0) = true.

(** [x] does not sort after [y]: its key is [>=]. *)
Definition key_ge {A : Type} (key : A -> float) (x y : A) : Prop :=
  (key y <=? key x) = true.

End Vocabulary64.

(** ** For the reals *)

Section VocabularyR.
Local Open Scope R_scope.



End VocabularyR.

(** ** Examples *)

Section Examples.
Local Open Scope float_scope.

(** [math.log10] and [pow] as CPython 3.11 on glibc (x86-64) return them,
    at the points the examples below evaluate; not a number elsewhere. *)
Definition sample_log10 (x : float) : float :=
  if x =? 1 then 0
  else if x =? 1.25 then 0x1.8cf183886480dp-4
  else if x =? 2 then 0x1.34413509f79ffp-2
  else if x =? 2.5 then 0x1.977d95ec10c02p-2
  else if x =? 3 then 0x1.e8927964fd5fdp-2
  else if x =? 4 then 0x1.34413509f79ffp-1
  else if x =? 26 then 0x1.6a3bb17e3f0cfp+0
  else if x =? 4000 then 0x1.cd104d427de80p+1
  else if x =? 9000 then 0x1.fa249e593f57fp+1
  else nan.

Definition sample_pow (x y : float) : float :=
  if y =? 2 then
    if x =? 0 then 0
    else if x =? -0.5 then 0.25
    else if x =? -5 then 25
    else nan
  else if y =? 3 then
    if x =? 0x1.34413509f79ffp-2 then 0x1.bef0a5f9ee134p-6
    else if x =? 0x1.977d95ec10c02p-2 then 0x1.021d5dec739fbp-4
    else if x =? 0x1.34413509f79ffp-1 then 0x1.bef0a5f9ee134p-3
    else if x =? 0x1.e8927964fd5fdp-2 then 0x1.bce22914e8e48p-4
    else nan
  else nan.

Definition sample_libm : Libm float := libm64 sample_log10 sample_pow.

Definition row (id player_id map_id time : Z) : RecordRow :=
  {| r_id := id; r_player_id := player_id; r_map_id := map_id;
     r_time := time |}.

Definition two_players : list PlayerRow :=
  [ {| p_id := 1; p_login := "ann"; p_name := "Ann" |};
    {| p_id := 2; p_login := "bob"; p_name := "Bob" |} ].

Definition three_players : list PlayerRow :=
  two_players ++ [ {| p_id := 3; p_login := "cat"; p_name := "Cat" |} ].

(** The end-to-end example of the specification: one map, two records of
    10 s and 20 s. *)
Definition example_db : Snapshot := {|
  players_rows := two_players;
  maps_rows := [ {| m_id := 7; m_name := "M" |} ];
  records_by_time := fun map_id =>
    if (map_id =? 7)%Z then [row 1 1 7 10000; row 2 2 7 20000] else []
|}.

(** The example as a second connection might serve it: the same rows, and the
    same records for the one map there is. *)
Definition example_db_again : Snapshot := {|
  players_rows := two_players;
  maps_rows := [ {| m_id := 7; m_name := "M" |} ];
  records_by_time := fun map_id =>
    if (map_id =? 7)%Z then [row 1 1 7 10000; row 2 2 7 20000]
    else [row 9 1 map_id 1]
|}.

(** The example with a third player who never finished and a second map
    nobody finished. *)
Definition sparse_db : Snapshot := {|
  players_rows := three_players;
  maps_rows := [ {| m_id := 7; m_name := "M" |}; {| m_id := 8; m_name := "N" |} ];
  records_by_time := records_by_time example_db
|}.


(** Two maps with the same two times; the first is shared by both players,
    the second is played by one. *)
Definition two_maps_db : Snapshot := {|
  players_rows := two_players;
  maps_rows := [ {| m_id := 1; m_name := "A" |};
                 {| m_id := 2; m_name := "B" |} ];
  records_by_time := fun map_id =>
    if (map_id =? 1)%Z then [row 1 1 1 1000; row 2 2 1 2000]
    else if (map_id =? 2)%Z then [row 3 1 2 1000; row 4 1 2 2000]
    else []
|}.

(** The three finishers of one map in an order no [ORDER BY time] would
    return: 20 s, 10 s, 30 s. *)
Definition shuffled_db : Snapshot := {|
  players_rows := three_players;
  maps_rows := [ {| m_id := 7; m_name := "M" |} ];
  records_by_time := fun map_id =>
    if (map_id =? 7)%Z
    then [row 1 1 7 20000; row 2 2 7 10000; row 3 3 7 30000] else []
|}.

(** The example with a record of a player the [players] table lacks. *)
Definition orphan_db : Snapshot := {|
  players_rows := two_players;
  maps_rows := [ {| m_id := 7; m_name := "M" |} ];
  records_by_time := fun map_id =>
    if (map_id =? 7)%Z then [row 1 1 7 10000; row 2 9 7 20000] else []
|}.

End Examples.

(** * Part III: lemmas *)

(** ** Dicts and sorting *)

Section DictFacts.
Context {V : Type}.
Implicit Types (d : dict V) (k : Z) (v : V).

Lemma dict_get_set_eq k v d : dict_get k (dict_set k v d) = Some v.
Proof.
  induction d as [|[k' v'] d IH]; simpl.
  - now rewrite Z.eqb_refl.
  - destruct (k =? k') eqn:E; simpl; rewrite E; auto.
Qed.

Lemma dict_get_set_neq k k' v d :
  k <> k' -> dict_get k (dict_set k' v d) = dict_get k d.
Proof.
  intros Hne. induction d as [|[k0 v0] d IH]; simpl.
  - destruct (k =? k') eqn:E; auto. apply Z.eqb_eq in E. contradiction.
  - destruct (k' =? k0) eqn:E; simpl.
    + apply Z.eqb_eq in E. subst k0.
      destruct (k =? k') eqn:E'; auto.
      apply Z.eqb_eq in E'. contradiction.
    + destruct (k =? k0); auto.
Qed.

Lemma dict_get_In k d : In k (keys d) <-> dict_get k d <> None.
Proof.
  induction d as [|[k' v'] d IH]; simpl.
  - split; [tauto | congruence].
  - destruct (k =? k') eqn:E.
    + apply Z.eqb_eq in E. split; [discriminate | auto].
    + apply Z.eqb_neq in E. rewrite <- IH. split; [intros [?|?] | ]; auto.
      congruence.
Qed.

Lemma dict_mem_In k d : dict_mem k d = true <-> In k (keys d).
Proof.
  rewrite dict_get_In. unfold dict_mem.
  destruct (dict_get k d); split; congruence.
Qed.

Lemma dict_get_not_In k d : ~ In k (keys d) -> dict_get k d = None.
Proof.
  intros Hk. destruct (dict_get k d) eqn:E; auto.
  exfalso. apply Hk, dict_get_In. congruence.
Qed.

Lemma keys_dict_set k v d :
  keys (dict_set k v d) = if dict_mem k d then keys d else keys d ++ [k].
Proof.
  unfold dict_mem. induction d as [|[k' v'] d IH]; simpl; auto.
  destruct (k =? k') eqn:E; simpl; auto.
  rewrite IH. destruct (dict_get k d); auto.
Qed.

Lemma NoDup_keys_dict_set k v d :
  NoDup (keys d) -> NoDup (keys (dict_set k v d)).
Proof.
  intros Hd. rewrite keys_dict_set.
  destruct (dict_mem k d) eqn:E; auto.
  apply NoDup_app; auto.
  - constructor; [intros [] | constructor].
  - intros x Hx [<-|[]]. apply dict_mem_In in Hx. congruence.
Qed.

Lemma NoDup_keys_dict_of_rows (key : V -> Z) (rows : list V) :
  NoDup (keys (dict_of_rows key rows)).
Proof.
  unfold dict_of_rows.
  assert (G : forall d : dict V, NoDup (keys d) ->
    NoDup (keys (fold_left (fun d row => dict_set (key row) row d) rows d))).
  { induction rows as [|row rows IH]; simpl; auto.
    intros d Hd. apply IH, NoDup_keys_dict_set, Hd. }
  apply G. constructor.
Qed.

Lemma In_keys_dict_of_rows (key : V -> Z) (rows : list V) k :
  In k (keys (dict_of_rows key rows)) <-> In k (map key rows).
Proof.
  unfold dict_of_rows.
  assert (G : forall d : dict V,
    In k (keys (fold_left (fun d row => dict_set (key row) row d) rows d))
    <-> In k (keys d) \/ In k (map key rows)).
  { induction rows as [|row rows IH]; intros d; simpl; [tauto|].
    rewrite IH, keys_dict_set.
    destruct (dict_mem (key row) d) eqn:E.
    - apply dict_mem_In in E. intuition (subst; auto).
    - rewrite in_app_iff. simpl. tauto. }
  rewrite G. simpl. tauto.
Qed.

Lemma drop_key_set_same k v d : drop_key k (dict_set k v d) = drop_key k d.
Proof.
  induction d as [|[k' v'] d IH]; simpl.
  - now rewrite Z.eqb_refl.
  - destruct (k =? k') eqn:E; simpl.
    + apply Z.eqb_eq in E. subst k'. now rewrite Z.eqb_refl.
    + now rewrite IH.
Qed.

Lemma drop_key_set_other k k' v d :
  k' <> k -> drop_key k (dict_set k' v d) = dict_set k' v (drop_key k d).
Proof.
  intros Hne. induction d as [|[k0 v0] d IH]; simpl.
  - apply Z.eqb_neq in Hne. now rewrite Hne.
  - destruct (k' =? k0) eqn:E; simpl.
    + apply Z.eqb_eq in E. subst k0. apply Z.eqb_neq in Hne.
      rewrite Hne. simpl. now rewrite Z.eqb_refl.
    + destruct (k0 =? k); simpl; [assumption|]. now rewrite E, IH.
Qed.

Lemma dict_of_rows_filter (key : V -> Z) k (rows : list V) :
  dict_of_rows key (filter (fun row => negb (key row =? k)) rows)
  = drop_key k (dict_of_rows key rows).
Proof.
  unfold dict_of_rows.
  assert (G : forall d,
    fold_left (fun d row => dict_set (key row) row d)
      (filter (fun row => negb (key row =? k)) rows) (drop_key k d)
    = drop_key k (fold_left (fun d row => dict_set (key row) row d) rows d)).
  { induction rows as [|row rows IH]; intros d; simpl; auto.
    destruct (key row =? k) eqn:E; simpl.
    - apply Z.eqb_eq in E. rewrite <- IH. now rewrite E, drop_key_set_same.
    - apply Z.eqb_neq in E. rewrite <- IH. now rewrite drop_key_set_other. }
  apply (G []).
Qed.

Lemma keys_perm (d d' : dict V) :
  Permutation d d' -> forall k, In k (keys d) -> In k (keys d').
Proof.
  intros Hp k. unfold keys. apply Permutation_in. now apply Permutation_map.
Qed.

End DictFacts.

Section SortFacts.
Context {F : Type} {num : Arith F} {A : Type} (key : A -> F).

Lemma insert_desc_perm (x : A) (l : list A) :
  Permutation (insert_desc key x l) (x :: l).
Proof.
  induction l as [|y l IH]; simpl; auto.
  destruct (key x [<?] key y); auto.
  rewrite IH. apply perm_swap.
Qed.

Lemma sort_desc_perm (l : list A) : Permutation (sort_desc key l) l.
Proof.
  induction l as [|x l IH]; simpl; auto.
  rewrite insert_desc_perm. now constructor.
Qed.

End SortFacts.

Section ListFacts.

Lemma last_nonempty_default {A : Type} (y d d' : A) (l : list A) :
  last (y :: l) d = last (y :: l) d'.
Proof. revert y. induction l as [|z l IH]; intros y; [reflexivity|apply IH]. Qed.

Lemma last_cons_nonempty {A : Type} (x y d : A) (l : list A) :
  last (x :: y :: l) d = last (y :: l) x.
Proof. apply (last_nonempty_default y d x l). Qed.

Lemma nth_pred_length {A : Type} (x d : A) (l : list A) :
  nth (length (x :: l) - 1) (x :: l) d = last (x :: l) x.
Proof.
  simpl length. rewrite Nat.sub_1_r. simpl Nat.pred.
  revert x. induction l as [|y l IH]; intros x; [reflexivity|].
  rewrite last_cons_nonempty.
  change (nth (length l) (y :: l) d = last (y :: l) x).
  rewrite (last_nonempty_default y x y). apply IH.
Qed.

Lemma fold_left_ext_In {A B : Type} (f g : A -> B -> A) (l : list B) (a : A) :
  (forall a x, In x l -> f a x = g a x) -> fold_left f l a = fold_left g l a.
Proof.
  revert a. induction l as [|x l IH]; intros a Hfg; simpl; auto.
  rewrite Hfg by (left; reflexivity). apply IH.
  intros a' y Hy. apply Hfg. now right.
Qed.

Lemma In_enumerate {A : Type} (l : list A) (ir : nat * A) :
  In ir (enumerate l) -> In (snd ir) l.
Proof. destruct ir as [i r]. apply in_combine_r. Qed.

End ListFacts.

(** ** The engine, for any arithmetic *)

Section EngineFacts.
Context {F : Type} {num : Arith F} {libm : Libm F}.
Implicit Types (stats : MapStat.t F) (record first : RecordRow).

(** The first loop folds each field on its own. *)
Lemma accumulate_fold (l : list RecordRow) stats :
  fold_left accumulate l stats =
  MapStat.mk (MapStat.records_count stats)
    (fold_left py_min (map record_time_sec l) (MapStat.min_record stats))
    (fold_left fadd (map record_time_sec l) (MapStat.average_record stats))
    (MapStat.median_record stats)
    (fold_left py_max (map record_time_sec l) (MapStat.max_record stats))
    (MapStat.score stats).
Proof.
  revert stats. induction l as [|record l IH]; intros stats; simpl.
  - now destruct stats.
  - now rewrite IH.
Qed.

Lemma map_stat_unfold first (l : list RecordRow) :
  map_stat first l =
  MapStat.mk (Z.of_nat (length l))
    (fold_left py_min (map record_time_sec l) (record_time_sec first))
    (fold_left fadd (map record_time_sec l) (of_int 0)
       [/] of_int (Z.of_nat (length l)))
    (record_time_sec (nth (length l / 2)%nat l first))
    (fold_left py_max (map record_time_sec l) (record_time_sec first))
    (of_int 0).
Proof. unfold map_stat. now rewrite accumulate_fold. Qed.

Lemma same_times_refl stats : same_times stats stats.
Proof. repeat split. Qed.

Lemma add_map_score_same_times stats (score : F) :
  same_times stats (add_map_score stats score).
Proof. repeat split. Qed.

Lemma score_loop_same_times (l : list (nat * RecordRow)) stats ps :
  same_times stats (fst (fold_left score_record l (stats, ps))).
Proof.
  revert stats ps. induction l as [|[i record] l IH]; intros stats ps.
  - apply same_times_refl.
  - simpl. destruct (IH (add_map_score stats (record_score stats i record))
      (add_player_score ps (r_player_id record)
         (record_score stats i record))) as (A & B & C & D & E).
    repeat split; simpl in *; congruence.
Qed.

Lemma score_map_same_times first (l : list RecordRow) ps :
  same_times (map_stat first l) (fst (score_map first l ps)).
Proof. apply score_loop_same_times. Qed.

Lemma record_score_same_times stats stats' (i : nat) record :
  same_times stats stats' ->
  record_score stats' i record = record_score stats i record.
Proof.
  intros (Hcount & _ & Havg & _). unfold record_score.
  now rewrite Hcount, Havg.
Qed.

(** The map's total is the sum, in rank order, of its records' scores. *)
Lemma score_loop_total (l : list (nat * RecordRow)) stats ps :
  MapStat.score (fst (fold_left score_record l (stats, ps)))
  = fold_left fadd
      (map (fun ir => record_score stats (fst ir) (snd ir)) l)
      (MapStat.score stats).
Proof.
  revert stats ps. induction l as [|[i record] l IH]; intros stats ps.
  - reflexivity.
  - simpl. now rewrite IH.
Qed.

Lemma compute_score_formula (r rn : Z) (t average : F) :
  compute_score r rn t average = score_formula r rn t average.
Proof. unfold compute_score, score_formula. now rewrite Z.pow_2_r. Qed.

Lemma compute_score_terms (r rn : Z) (t average : F) :
  compute_score r rn t average
  = (base_term rn [+] deviation_term t average) [*] rank_decay r rn.
Proof. reflexivity. Qed.

Lemma py_max_clamps (time average : F) :
  (time [<?] average) = true -> py_max time average = average.
Proof. intros Hlt. unfold py_max. now rewrite Hlt. Qed.

Lemma process_map_finalized fetch (st : Stats) (item : Z * MapRow) :
  (forall id stats, dict_get id (fst st) = Some stats ->
     finalized fetch id stats) ->
  forall id stats, dict_get id (fst (process_map fetch st item)) = Some stats ->
     finalized fetch id stats.
Proof.
  intros Hst id stats. destruct st as [map_stats player_stats].
  destruct item as [map_id row]. unfold process_map. simpl fst.
  destruct (fetch map_id) as [|first rest] eqn:E; [apply Hst|].
  destruct (score_map first (first :: rest) player_stats)
    as [stats' ps'] eqn:Es.
  simpl. destruct (Z.eq_dec id map_id) as [->|Hne].
  - rewrite dict_get_set_eq. intros [= <-].
    exists first, rest, player_stats. now rewrite Es.
  - rewrite dict_get_set_neq by assumption. apply Hst.
Qed.

Lemma all_stats_finalized (db : Snapshot) map_id stats :
  dict_get map_id (fst (all_stats db)) = Some stats ->
  finalized (records_by_time db) map_id stats.
Proof.
  unfold all_stats.
  assert (G : forall items (st : Stats),
    (forall id s, dict_get id (fst st) = Some s ->
       finalized (records_by_time db) id s) ->
    forall id s,
      dict_get id (fst (fold_left (process_map (records_by_time db)) items st))
        = Some s -> finalized (records_by_time db) id s).
  { induction items as [|item items IH]; intros st Hst; simpl; auto.
    apply IH. now apply process_map_finalized. }
  apply G. simpl. discriminate.
Qed.

Lemma process_map_keeps fetch (st : Stats) (item : Z * MapRow) id :
  dict_get id (fst st) <> None ->
  dict_get id (fst (process_map fetch st item)) <> None.
Proof.
  destruct st as [map_stats player_stats], item as [map_id row].
  unfold process_map. simpl fst.
  destruct (fetch map_id) as [|first rest]; auto.
  destruct (score_map first (first :: rest) player_stats) as [stats' ps'].
  simpl. intros Hid. destruct (Z.eq_dec id map_id) as [->|Hne].
  - now rewrite dict_get_set_eq.
  - now rewrite dict_get_set_neq.
Qed.

Lemma process_map_adds fetch (st : Stats) (item : Z * MapRow) :
  fetch (fst item) <> [] ->
  dict_get (fst item) (fst (process_map fetch st item)) <> None.
Proof.
  destruct st as [map_stats player_stats], item as [map_id row].
  unfold process_map. simpl fst.
  destruct (fetch map_id) as [|first rest]; [congruence|]. intros _.
  destruct (score_map first (first :: rest) player_stats) as [stats' ps'].
  simpl. now rewrite dict_get_set_eq.
Qed.

(** Every map with at least one record gets its [MapStat]. *)
Lemma all_stats_complete (db : Snapshot) map_id :
  In map_id (keys (maps_dict db)) ->
  records_by_time db map_id <> [] ->
  exists stats, dict_get map_id (fst (all_stats db)) = Some stats.
Proof.
  intros Hin Hne. unfold all_stats.
  assert (G : forall items (st : Stats),
    In map_id (keys items) \/ dict_get map_id (fst st) <> None ->
    dict_get map_id
      (fst (fold_left (process_map (records_by_time db)) items st)) <> None).
  { induction items as [|item items IH]; intros st; simpl.
    - intros [[]|]; auto.
    - intros [[Hitem|Hitems]|Hst]; apply IH; auto; right.
      + rewrite <- Hitem at 1. now apply process_map_adds; rewrite Hitem.
      + now apply process_map_keeps. }
  specialize (G (maps_dict db) ([], []) (or_introl Hin)).
  destruct (dict_get map_id _) as [stats|]; [eauto | congruence].
Qed.

(** What the finalized statistics of a map are, field by field. *)
Lemma finalized_fields fetch map_id (stats : MapStat.t F) :
  finalized fetch map_id stats ->
  let t := map record_time_sec (fetch map_id) in
  let n := length t in
  MapStat.records_count stats = Z.of_nat n /\
  MapStat.min_record stats = fold_left py_min t (hd (of_int 0) t) /\
  MapStat.max_record stats = fold_left py_max t (hd (of_int 0) t) /\
  MapStat.average_record stats
    = fold_left fadd t (of_int 0) [/] of_int (Z.of_nat n) /\
  MapStat.median_record stats = nth (n / 2) t (of_int 0) /\
  t <> [].
Proof.
  intros (first & rest & ps & Hfetch & ->). rewrite Hfetch.
  destruct (score_map_same_times first (first :: rest) ps)
    as (A & B & C & D & E).
  rewrite A, B, C, D, E, map_stat_unfold. cbv zeta.
  rewrite length_map.
  cbn [MapStat.records_count MapStat.min_record MapStat.max_record
       MapStat.average_record MapStat.median_record].
  repeat split; try discriminate.
  rewrite <- (map_nth record_time_sec).
  apply nth_indep. rewrite length_map.
  apply Nat.div_lt; simpl; lia.
Qed.

Lemma process_map_empty fetch (st : Stats) (item : Z * MapRow) :
  fetch (fst item) = [] -> process_map fetch st item = st.
Proof.
  intros E. destruct st as [ms ps]. unfold process_map. now rewrite E.
Qed.

Lemma fold_process_map_drop fetch k (items : dict MapRow) (st : Stats) :
  fetch k = [] ->
  fold_left (process_map fetch) (drop_key k items) st
  = fold_left (process_map fetch) items st.
Proof.
  intros E. revert st. induction items as [|[k' row] items IH]; intros st.
  - reflexivity.
  - simpl. destruct (k' =? k) eqn:Ek; simpl.
    + apply Z.eqb_eq in Ek. subst k'.
      rewrite (process_map_empty fetch st (k, row)) by assumption. apply IH.
    + apply IH.
Qed.

Lemma all_stats_without_map (db : Snapshot) map_id :
  records_by_time db map_id = [] ->
  all_stats (without_map db map_id) = all_stats db.
Proof.
  intros E. unfold all_stats, maps_dict, without_map. simpl.
  rewrite dict_of_rows_filter. now apply fold_process_map_drop.
Qed.

Lemma keys_add_player_score (ps : dict (PlayerStat.t F)) p (score : F) :
  keys (add_player_score ps p score)
  = if dict_mem p ps then keys ps else keys ps ++ [p].
Proof.
  unfold add_player_score. destruct (dict_mem p ps) eqn:E.
  - unfold dict_mem in E. destruct (dict_get p ps) eqn:G; [|discriminate].
    rewrite keys_dict_set. unfold dict_mem. now rewrite G.
  - rewrite dict_get_set_eq, keys_dict_set.
    unfold dict_mem at 1. rewrite dict_get_set_eq.
    now rewrite keys_dict_set, E.
Qed.

(** A player enters [player_stats] only through one of the records. *)
Lemma score_loop_players (l : list (nat * RecordRow)) stats ps p :
  In p (keys (snd (fold_left score_record l (stats, ps)))) ->
  In p (keys ps) \/ exists ir, In ir l /\ r_player_id (snd ir) = p.
Proof.
  revert stats ps. induction l as [|[i record] l IH]; intros stats ps; simpl.
  - auto.
  - intros Hp. apply IH in Hp. destruct Hp as [Hp|(ir & Hir & Hid)].
    + rewrite keys_add_player_score in Hp.
      destruct (dict_mem (r_player_id record) ps); auto.
      apply in_app_or in Hp. destruct Hp as [Hp|[<-|[]]]; auto.
      right. exists (i, record). auto.
    + right. exists ir. auto.
Qed.

Lemma process_map_players fetch (st : Stats) (item : Z * MapRow) p :
  In p (keys (snd (process_map fetch st item))) ->
  In p (keys (snd st)) \/
  exists record, In record (fetch (fst item)) /\ r_player_id record = p.
Proof.
  destruct st as [ms ps], item as [map_id row]. unfold process_map.
  simpl fst. destruct (fetch map_id) as [|first rest] eqn:E; auto.
  unfold score_map.
  destruct (fold_left score_record (enumerate (first :: rest))
              (map_stat first (first :: rest), ps)) as [stats' ps'] eqn:Es.
  simpl snd. intros Hp.
  replace ps' with (snd (fold_left score_record (enumerate (first :: rest))
              (map_stat first (first :: rest), ps))) in Hp by now rewrite Es.
  apply score_loop_players in Hp. destruct Hp as [Hp|(ir & Hir & Hid)]; auto.
  right. exists (snd ir). split; [|assumption]. now apply In_enumerate.
Qed.

Lemma all_stats_players (db : Snapshot) p :
  In p (keys (snd (all_stats db))) ->
  exists map_id record,
    In map_id (keys (maps_dict db)) /\
    In record (records_by_time db map_id) /\ r_player_id record = p.
Proof.
  unfold all_stats.
  assert (G : forall items (st : Stats),
    In p (keys (snd (fold_left (process_map (records_by_time db)) items st))) ->
    In p (keys (snd st)) \/
    exists map_id record, In map_id (keys items) /\
      In record (records_by_time db map_id) /\ r_player_id record = p).
  { induction items as [|item items IH]; intros st; simpl; auto.
    intros Hp. apply IH in Hp.
    destruct Hp as [Hp|(map_id & record & Hm & Hr & Hid)].
    - apply process_map_players in Hp.
      destruct Hp as [Hp|(record & Hr & Hid)]; auto.
      right. exists (fst item), record. auto.
    - right. exists map_id, record. auto. }
  intros Hp. apply G in Hp. destruct Hp as [[]|Hp]. exact Hp.
Qed.

Lemma keys_process_map fetch (st : Stats) (item : Z * MapRow) k :
  In k (keys (fst (process_map fetch st item))) ->
  In k (keys (fst st)) \/ k = fst item.
Proof.
  destruct st as [ms ps], item as [map_id row]. unfold process_map.
  simpl fst. destruct (fetch map_id) as [|first rest]; auto.
  destruct (score_map first (first :: rest) ps) as [stats' ps'].
  simpl fst. rewrite keys_dict_set.
  destruct (dict_mem map_id ms); auto.
  intros Hk. apply in_app_or in Hk. destruct Hk as [|[<-|[]]]; auto.
Qed.

Lemma process_map_ext fetch fetch' (st : Stats) (item : Z * MapRow) :
  fetch (fst item) = fetch' (fst item) ->
  process_map fetch st item = process_map fetch' st item.
Proof.
  intros E. destruct st as [ms ps]. unfold process_map. now rewrite E.
Qed.

(** The aggregates read the snapshot only through the two row lists and the
    records of the maps listed. *)
Lemma all_stats_ext (db1 db2 : Snapshot) :
  maps_rows db1 = maps_rows db2 ->
  (forall map_id, In map_id (map m_id (maps_rows db1)) ->
     records_by_time db1 map_id = records_by_time db2 map_id) ->
  all_stats db1 = all_stats db2.
Proof.
  intros Hmaps Hrecords. unfold all_stats, maps_dict. rewrite <- Hmaps.
  apply fold_left_ext_In. intros st item Hitem.
  apply process_map_ext, Hrecords, In_keys_dict_of_rows.
  unfold keys. now apply in_map.
Qed.

End EngineFacts.

(** ** The order of doubles *)

Section SpecOrder.
Implicit Types a b c : spec_float.

Ltac sf_cases :=
  unfold SFleb, SFltb, SFeqb, SFcompare; intros;
  repeat match goal with
    | x : spec_float |- _ => destruct x
    | s : bool |- _ => destruct s
    end;
  try reflexivity; try discriminate;
  change (Pos.compare_cont Eq) with Pos.compare in *;
  repeat match goal with
    | H : context [Z.compare ?x ?y] |- _ =>
        destruct (Z.compare_spec x y); subst
    | |- context [Z.compare ?x ?y] =>
        destruct (Z.compare_spec x y); subst
    | H : context [Pos.compare ?x ?y] |- _ =>
        destruct (Pos.compare_spec x y); subst
    | |- context [Pos.compare ?x ?y] =>
        destruct (Pos.compare_spec x y); subst
    end;
  simpl in *; try reflexivity; try discriminate; try lia.

Lemma SFleb_not_gt a b : SFleb a b = true -> SFltb b a = false.
Proof. revert a b. sf_cases. Qed.

Lemma SFleb_total a b :
  SFeqb a a = true -> SFeqb b b = true ->
  SFltb a b = false -> SFleb b a = true.
Proof. revert a b. sf_cases. Qed.

Lemma SFleb_trans a b c :
  SFleb a b = true -> SFleb b c = true -> SFleb a c = true.
Proof. revert a b c. sf_cases. Qed.

Lemma SFleb_not_lt_eq a b :
  SFleb a b = true -> SFltb a b = false -> SFeqb a b = true.
Proof. revert a b. sf_cases. Qed.

Lemma SFleb_refl_r a b : SFleb a b = true -> SFleb b b = true.
Proof. revert a b. sf_cases. Qed.

Lemma SFeqb_leb_refl a : SFeqb a a = true -> SFleb a a = true.
Proof. revert a. sf_cases. Qed.

Lemma SFltb_leb (a b : spec_float) : SFltb a b = true -> SFleb a b = true.
Proof.
  unfold SFltb, SFleb. destruct (SFcompare a b) as [[]|]; congruence.
Qed.

Lemma SFltb_eqb_apart a b c :
  SFltb a b = true -> SFeqb a c = true -> SFeqb b c = false.
Proof. revert a b c. sf_cases. Qed.

End SpecOrder.

Section FloatOrder.
Local Open Scope float_scope.
Implicit Types a b c : float.

Lemma leb_not_gt a b : (a <=? b) = true -> (b <? a) = false.
Proof. rewrite leb_spec, ltb_spec. apply SFleb_not_gt. Qed.

Lemma leb_total a b :
  (a =? a) = true -> (b =? b) = true -> (a <? b) = false -> (b <=? a) = true.
Proof. rewrite !eqb_spec, ltb_spec, leb_spec. apply SFleb_total. Qed.

Lemma leb_trans a b c :
  (a <=? b) = true -> (b <=? c) = true -> (a <=? c) = true.
Proof. rewrite !leb_spec. apply SFleb_trans. Qed.

Lemma leb_not_lt_eq a b :
  (a <=? b) = true -> (a <? b) = false -> (a =? b) = true.
Proof. rewrite leb_spec, ltb_spec, eqb_spec. apply SFleb_not_lt_eq. Qed.

Lemma leb_refl_r a b : (a <=? b) = true -> (b <=? b) = true.
Proof. rewrite !leb_spec. apply SFleb_refl_r. Qed.

Lemma eqb_leb_refl a : (a =? a) = true -> (a <=? a) = true.
Proof. rewrite eqb_spec, leb_spec. apply SFeqb_leb_refl. Qed.

Lemma leb_refl_eqb a : (a <=? a) = true -> (a =? a) = true.
Proof.
  intros Ha. apply leb_not_lt_eq; [assumption|]. now apply leb_not_gt.
Qed.

Lemma ltb_leb (a b : float) : (a <? b) = true -> (a <=? b) = true.
Proof. rewrite ltb_spec, leb_spec. apply SFltb_leb. Qed.

End FloatOrder.

(** ** Statistics and ranking on doubles *)

Section Facts64.
Local Open Scope float_scope.

Lemma ascending_cons x (t : list float) :
  ascending (x :: t) <->
  (x <=? x) = true /\ Forall (fun y => (x <=? y) = true) t /\ ascending t.
Proof.
  split.
  - intros Hasc. repeat split.
    + apply (Hasc 0%nat 0%nat). simpl. lia.
    + apply Forall_forall. intros y Hy.
      destruct (In_nth _ _ 0 Hy) as (j & Hj & <-).
      apply (Hasc 0%nat (S j)). simpl. lia.
    + intros i j Hij. apply (Hasc (S i) (S j)). simpl. lia.
  - intros (Hx & Hall & Hasc) i j Hij. simpl in Hij.
    destruct i as [|i], j as [|j]; simpl; try lia; auto.
    + rewrite Forall_forall in Hall. apply Hall, nth_In. lia.
    + apply Hasc. lia.
Qed.

Lemma ascendingb_spec (t : list float) :
  ascendingb t = true <-> ascending t.
Proof.
  induction t as [|x t IH].
  - split; auto. intros _ i j Hij. simpl in Hij. lia.
  - rewrite ascending_cons, <- IH. simpl.
    rewrite !andb_true_iff, forallb_forall, Forall_forall. tauto.
Qed.

Lemma ascending_hd_least x (t : list float) :
  ascending (x :: t) -> Forall (fun y => (x <=? y) = true) (x :: t).
Proof.
  intros Hasc. apply ascending_cons in Hasc.
  destruct Hasc as (Hx & Hall & _). now constructor.
Qed.

(** A minimum that starts below every time stays where it is. *)
Lemma fold_py_min_least (t : list float) m :
  Forall (fun y => (m <=? y) = true) t -> fold_left py_min t m = m.
Proof.
  induction 1 as [|y t Hy _ IH]; simpl; auto.
  unfold py_min at 2. simpl.
  now rewrite (leb_not_gt _ _ Hy).
Qed.

(** On ascending times the running maximum ends equal to the last one. *)
Lemma fold_py_max_last (t : list float) m :
  (m <=? m) = true ->
  Forall (fun y => (m <=? y) = true) t -> ascending t ->
  (fold_left py_max t m =? last t m) = true.
Proof.
  revert m. induction t as [|x t IH]; intros m Hm Hall Hasc.
  - now apply leb_refl_eqb.
  - apply ascending_cons in Hasc. destruct Hasc as (Hx & Hxt & Hasc).
    inversion Hall as [|? ? Hmx Hmt]; subst.
    simpl fold_left. unfold py_max at 2. simpl flt.
    destruct (m <? x) eqn:Elt.
    + destruct t as [|y t]; [now apply leb_refl_eqb|].
      rewrite last_cons_nonempty. now apply IH.
    + destruct t as [|y t]; [now apply leb_not_lt_eq|].
      rewrite last_cons_nonempty.
      specialize (IH m Hm Hmt Hasc).
      destruct t as [|z t]; [exact IH|].
      rewrite last_cons_nonempty in IH |- *. exact IH.
Qed.

Section Ranking.
Context {A : Type} (key : A -> float).

Lemma insert_desc_sorted (x : A) (l : list A) :
  no_nan (map key (x :: l)) ->
  StronglySorted (key_ge key) l -> StronglySorted (key_ge key) (insert_desc key x l).
Proof.
  intros Hnan Hs. induction Hs as [|y l Hs IH Hy]; cbn [insert_desc].
  - repeat constructor.
  - inversion Hnan as [|? ? Hx Hyl]; subst.
    inversion Hyl as [|? ? Hy' Hl]; subst.
    destruct (key x [<?] key y) eqn:E;
      [change ((key x <? key y) = true) in E
      |change ((key x <? key y) = false) in E].
    + constructor.
      * apply IH. now constructor.
      * apply (Permutation_Forall (Permutation_sym (insert_desc_perm key x l))).
        constructor; [now apply ltb_leb | assumption].
    + assert (Hyx : (key_ge key) x y) by now apply leb_total.
      constructor; [now constructor|].
      constructor; [assumption|].
      apply Forall_impl with (2 := Hy). intros z Hz.
      unfold key_ge in *. now apply leb_trans with (key y).
Qed.

Lemma sort_desc_sorted (l : list A) :
  no_nan (map key l) -> StronglySorted (key_ge key) (sort_desc key l).
Proof.
  induction l as [|x l IH]; simpl; intros Hnan.
  - constructor.
  - inversion Hnan as [|? ? Hx Hl]; subst.
    apply insert_desc_sorted; [|now apply IH].
    constructor; [assumption|].
    apply (Permutation_Forall
             (Permutation_map key (Permutation_sym (sort_desc_perm key l)))).
    exact Hl.
Qed.

Lemma sorted_descending (l : list A) :
  StronglySorted (key_ge key) l -> descending (map key l).
Proof.
  induction 1 as [|x l Hs IH Hx]; intros i j Hij; simpl in Hij.
  - lia.
  - destruct j as [|j]; [lia|]. destruct i as [|i]; simpl.
    + rewrite Forall_forall in Hx. rewrite length_map in Hij.
      rewrite (nth_indep _ 0 (key x)) by (rewrite length_map; lia).
      rewrite map_nth. apply Hx, nth_In. lia.
    + apply IH. lia.
Qed.

End Ranking.
End Facts64.

(** ** Exact arithmetic *)

Section Exact.
Local Open Scope R_scope.
Implicit Types (x y a b : R) (t : list R).

Lemma Rltb_true x y : Rltb x y = true <-> x < y.
Proof. unfold Rltb. destruct (Rlt_dec x y); split; auto; discriminate. Qed.

Lemma Rltb_false x y : Rltb x y = false <-> y <= x.
Proof.
  unfold Rltb. destruct (Rlt_dec x y); split; auto; try discriminate; lra.
Qed.


Lemma py_max_Rmax a b : py_max a b = Rmax a b.
Proof.
  unfold py_max. simpl flt. destruct (Rltb a b) eqn:E.
  - apply Rltb_true in E. rewrite Rmax_right; lra.
  - apply Rltb_false in E. rewrite Rmax_left; lra.
Qed.





Lemma ln_10_pos : 0 < ln 10.
Proof. rewrite <- ln_1. apply ln_increasing; lra. Qed.

Lemma log10_mono x y : 0 < x -> x <= y -> log10 x <= log10 y.
Proof.
  intros Hx Hxy. simpl log10. pose proof ln_10_pos.
  apply Rmult_le_compat_r; [left; now apply Rinv_0_lt_compat|].
  destruct Hxy as [Hlt| ->]; [left; now apply ln_increasing | lra].
Qed.

Lemma log10_1 : log10 1 = 0.
Proof. simpl log10. rewrite ln_1. lra. Qed.

Lemma log10_nonneg x : 1 <= x -> 0 <= log10 x.
Proof. intros Hx. rewrite <- log10_1. apply log10_mono; lra. Qed.



Lemma deviation_term_nonneg x average : 0 <= deviation_term x average.
Proof.
  apply log10_nonneg. simpl. pose proof (pow2_ge_0 (average - x)).
  simpl in *. lra.
Qed.

Lemma ratio_mono (rn r1 r2 : Z) :
  (1 <= r1 <= r2)%Z -> (r2 <= rn)%Z ->
  1 <= IZR rn / IZR r2 <= IZR rn / IZR r1.
Proof.
  intros Hr Hrn.
  assert (H1 : 1 <= IZR r1) by (apply IZR_le; lia).
  assert (H2 : IZR r1 <= IZR r2) by (apply IZR_le; lia).
  assert (H3 : IZR r2 <= IZR rn) by (apply IZR_le; lia).
  split.
  - apply Rmult_le_reg_r with (IZR r2); [lra|].
    unfold Rdiv. rewrite Rmult_assoc, Rinv_l by lra. lra.
  - unfold Rdiv. apply Rmult_le_compat_l; [lra|].
    apply Rinv_le_contravar; lra.
Qed.












End Exact.

(** ** The aggregates as functions of the fetched records *)

Section DictMore.
Context {V : Type}.
Implicit Types (d : dict V) (k : Z) (v : V).

Lemma dict_mem_existsb k d : dict_mem k d = existsb (Z.eqb k) (keys d).
Proof.
  unfold dict_mem. induction d as [|[k' v'] d IH]; simpl; auto.
  destruct (k =? k'); auto.
Qed.

Lemma find_snoc {A : Type} (f : A -> bool) (l : list A) (x : A) :
  find f (l ++ [x])
  = match find f l with
    | Some y => Some y
    | None => if f x then Some x else None
    end.
Proof.
  induction l as [|y l IH]; simpl; auto. destruct (f y); auto.
Qed.

Lemma dict_get_fold_rows (key : V -> Z) (rows : list V) d k :
  dict_get k (fold_left (fun d row => dict_set (key row) row d) rows d)
  = match find (fun row => key row =? k) (rev rows) with
    | Some row => Some row
    | None => dict_get k d
    end.
Proof.
  revert d. induction rows as [|row rows IH]; intros d; simpl; auto.
  rewrite IH, find_snoc.
  destruct (find (fun row0 => key row0 =? k) (rev rows)); auto.
  destruct (key row =? k) eqn:E.
  - apply Z.eqb_eq in E. subst k. apply dict_get_set_eq.
  - apply Z.eqb_neq in E. apply dict_get_set_neq. congruence.
Qed.
End DictMore.

Section Aggregation.
Context {F : Type} {num : Arith F} {libm : Libm F}.
Implicit Types (stats : MapStat.t F) (ps : dict (PlayerStat.t F)).

Lemma score_loop_contributions (l : list (nat * RecordRow)) stats ps :
  snd (fold_left score_record l (stats, ps))
  = add_contributions ps
      (map (fun ir =>
              (r_player_id (snd ir), record_score stats (fst ir) (snd ir)))
         l).
Proof.
  revert stats ps. induction l as [|[i record] l IH]; intros stats ps.
  - reflexivity.
  - simpl. now rewrite IH.
Qed.

Lemma process_map_contributions fetch (st : Stats) (item : Z * MapRow) :
  snd (process_map fetch st item)
  = add_contributions (snd st) (map_contributions fetch (fst item)).
Proof.
  destruct st as [ms ps], item as [map_id row].
  unfold process_map, map_contributions. simpl fst. simpl snd.
  destruct (fetch map_id) as [|first rest]; [reflexivity|].
  pose proof (score_loop_contributions (enumerate (first :: rest))
                (map_stat first (first :: rest)) ps) as Hl.
  fold (score_map first (first :: rest) ps) in Hl.
  destruct (score_map first (first :: rest) ps) as [stats' ps'].
  exact Hl.
Qed.

Lemma add_contributions_app ps (l l' : list (Z * F)) :
  add_contributions ps (l ++ l')
  = add_contributions (add_contributions ps l) l'.
Proof. apply fold_left_app. Qed.

Lemma all_stats_contributions (db : Snapshot) :
  snd (all_stats db) = add_contributions [] (contributions db).
Proof.
  unfold all_stats, contributions.
  assert (G : forall items (st : Stats),
    snd (fold_left (process_map (records_by_time db)) items st)
    = add_contributions (snd st)
        (flat_map (fun item =>
                     map_contributions (records_by_time db) (fst item))
           items)).
  { induction items as [|item items IH]; intros st; simpl; auto.
    now rewrite IH, process_map_contributions, add_contributions_app. }
  apply G.
Qed.

Lemma dict_get_add_player_score_same ps p (score : F) :
  dict_get p (add_player_score ps p score) = add_to (dict_get p ps) score.
Proof.
  unfold add_player_score, dict_mem, add_to.
  destruct (dict_get p ps) as [v|] eqn:E.
  - now rewrite E, dict_get_set_eq.
  - now rewrite !dict_get_set_eq.
Qed.

Lemma dict_get_add_player_score_other ps p q (score : F) :
  p <> q -> dict_get p (add_player_score ps q score) = dict_get p ps.
Proof.
  intros Hne. unfold add_player_score, dict_mem.
  destruct (dict_get q ps) as [v|] eqn:E.
  - rewrite E. now apply dict_get_set_neq.
  - rewrite dict_get_set_eq. now rewrite !dict_get_set_neq.
Qed.

Lemma dict_get_add_contributions ps (l : list (Z * F)) p :
  dict_get p (add_contributions ps l)
  = fold_left add_to (scores_of p l) (dict_get p ps).
Proof.
  revert ps. induction l as [|[q s] l IH]; intros ps; [reflexivity|].
  unfold add_contributions, scores_of in *. simpl.
  rewrite IH. destruct (q =? p) eqn:E; simpl.
  - apply Z.eqb_eq in E. subst q.
    now rewrite dict_get_add_player_score_same.
  - apply Z.eqb_neq in E. rewrite dict_get_add_player_score_other; auto.
Qed.

Lemma fold_add_to_some (scores : list F) (v : PlayerStat.t F) :
  fold_left add_to scores (Some v)
  = Some (PlayerStat.mk (fold_left fadd scores (PlayerStat.score v))).
Proof.
  revert v. induction scores as [|s scores IH]; intros v; simpl.
  - now destruct v.
  - unfold add_to at 2. now rewrite IH.
Qed.

Lemma fold_add_to_none (scores : list F) :
  fold_left add_to scores None
  = match scores with
    | [] => None
    | _ :: _ => Some (PlayerStat.mk (fold_left fadd scores (of_int 0)))
    end.
Proof.
  destruct scores as [|s scores]; [reflexivity|].
  simpl. unfold add_to at 2. now rewrite fold_add_to_some.
Qed.

Lemma keys_add_contributions ps (l : list (Z * F)) :
  keys (add_contributions ps l) = first_seen_from (keys ps) (map fst l).
Proof.
  revert ps. induction l as [|[q s] l IH]; intros ps; [reflexivity|].
  unfold add_contributions, first_seen_from in *. simpl.
  now rewrite IH, keys_add_player_score, dict_mem_existsb.
Qed.

Lemma NoDup_keys_add_player_score ps p (score : F) :
  NoDup (keys ps) -> NoDup (keys (add_player_score ps p score)).
Proof.
  intros Hnd. rewrite keys_add_player_score.
  destruct (dict_mem p ps) eqn:E; auto.
  apply NoDup_app; auto.
  - constructor; [intros [] | constructor].
  - intros x Hx [<-|[]]. apply dict_mem_In in Hx. congruence.
Qed.

Lemma NoDup_keys_add_contributions ps (l : list (Z * F)) :
  NoDup (keys ps) -> NoDup (keys (add_contributions ps l)).
Proof.
  revert ps. induction l as [|[q s] l IH]; intros ps Hnd; [assumption|].
  apply IH. now apply NoDup_keys_add_player_score.
Qed.
End Aggregation.

Section Coverage.
Context {F : Type} {num : Arith F} {libm : Libm F}.

Lemma In_combine_seq {A : Type} (l : list A) (start k : nat) (x : A) :
  In (k, x) (combine (seq start (length l)) l) <->
  (start <= k)%nat /\ nth_error l (k - start) = Some x.
Proof.
  revert start. induction l as [|y l IH]; intros start; simpl.
  - split; [intros [] | intros [_ H]]. destruct (k - start)%nat; discriminate.
  - rewrite IH. split.
    + intros [E|[Hle Hn]].
      * inversion E; subst. rewrite Nat.sub_diag. auto.
      * split; [lia|].
        replace (k - start)%nat with (S (k - S start)) by lia. exact Hn.
    + intros [Hle Hn]. destruct (k - start)%nat as [|j] eqn:E.
      * left. inversion Hn; subst. f_equal. lia.
      * right. split; [lia|].
        replace (k - S start)%nat with j by lia. exact Hn.
Qed.

Lemma In_enumerate_iff {A : Type} (l : list A) (i : nat) (x : A) :
  In (i, x) (enumerate l) <-> nth_error l i = Some x.
Proof.
  unfold enumerate. rewrite In_combine_seq, Nat.sub_0_r.
  split; [tauto | split; [lia | assumption]].
Qed.

Lemma has_records_true fetch map_id :
  has_records fetch map_id = true <-> fetch map_id <> [].
Proof.
  unfold has_records. destruct (fetch map_id); split; congruence.
Qed.

Lemma keys_process_map_eq fetch (st : Stats) (item : Z * MapRow) :
  ~ In (fst item) (keys (fst st)) ->
  keys (fst (process_map fetch st item))
  = keys (fst st) ++ (if has_records fetch (fst item) then [fst item] else []).
Proof.
  destruct st as [ms ps], item as [map_id row].
  unfold process_map, has_records. simpl fst. intros Hnew.
  destruct (fetch map_id) as [|first rest]; [now rewrite app_nil_r|].
  destruct (score_map first (first :: rest) ps) as [stats' ps'].
  simpl fst. rewrite keys_dict_set.
  destruct (dict_mem map_id ms) eqn:E; [|reflexivity].
  apply dict_mem_In in E. contradiction.
Qed.

Lemma keys_fold_process_map fetch (items : dict MapRow) (st : Stats) :
  NoDup (keys items) ->
  (forall k, In k (keys items) -> ~ In k (keys (fst st))) ->
  keys (fst (fold_left (process_map fetch) items st))
  = keys (fst st) ++ filter (has_records fetch) (keys items).
Proof.
  revert st. induction items as [|item items IH]; intros st Hnd Hfresh.
  - simpl. now rewrite app_nil_r.
  - simpl keys in Hnd. inversion Hnd as [|? ? Hitem Hnd']; subst.
    simpl fold_left. rewrite IH; [|assumption|].
    + rewrite keys_process_map_eq by (apply Hfresh; now left).
      simpl. destruct (has_records fetch (fst item));
        now rewrite <- app_assoc.
    + intros k Hk Hin. apply keys_process_map in Hin.
      destruct Hin as [Hin| ->]; [|contradiction].
      apply (Hfresh k); [now right | assumption].
Qed.

Lemma keys_map_stats (db : Snapshot) :
  keys (fst (all_stats db))
  = filter (has_records (records_by_time db)) (keys (maps_dict db)).
Proof.
  unfold all_stats. rewrite keys_fold_process_map; auto.
  apply NoDup_keys_dict_of_rows.
Qed.

Lemma In_map_contributions fetch map_id (record : RecordRow) :
  In record (fetch map_id) ->
  exists score : F,
    In (r_player_id record, score) (map_contributions fetch map_id).
Proof.
  unfold map_contributions. intros Hin.
  destruct (fetch map_id) as [|first rest] eqn:E; [destruct Hin|].
  apply In_nth_error in Hin. destruct Hin as [i Hi].
  exists (record_score (map_stat first (first :: rest)) i record).
  apply in_map_iff. exists (i, record). split; [reflexivity|].
  now apply In_enumerate_iff.
Qed.

Lemma In_contributions (db : Snapshot) map_id (record : RecordRow) :
  In map_id (keys (maps_dict db)) ->
  In record (records_by_time db map_id) ->
  exists score : F, In (r_player_id record, score) (contributions db).
Proof.
  intros Hmap Hrecord.
  destruct (In_map_contributions _ _ _ Hrecord) as [score Hscore].
  exists score. unfold contributions. apply in_flat_map.
  unfold keys in Hmap. apply in_map_iff in Hmap.
  destruct Hmap as (item & <- & Hitem). exists item. auto.
Qed.

Lemma scores_of_nonempty (l : list (Z * F)) p (score : F) :
  In (p, score) l -> scores_of p l <> [].
Proof.
  intros Hin. unfold scores_of.
  assert (Hf : In (p, score) (filter (fun c => fst c =? p) l)).
  { apply filter_In. split; [assumption|]. simpl. apply Z.eqb_refl. }
  destruct (filter (fun c => fst c =? p) l); [destruct Hf | discriminate].
Qed.

(** Every owner of a fetched record is in [player_stats]. *)
Lemma all_stats_has_player (db : Snapshot) map_id (record : RecordRow) :
  In map_id (keys (maps_dict db)) ->
  In record (records_by_time db map_id) ->
  In (r_player_id record) (keys (snd (all_stats db))).
Proof.
  intros Hmap Hrecord. apply dict_get_In.
  destruct (In_contributions db map_id record Hmap Hrecord) as [score Hs].
  rewrite all_stats_contributions, dict_get_add_contributions.
  simpl dict_get. rewrite fold_add_to_none.
  pose proof (scores_of_nonempty _ _ _ Hs).
  destruct (scores_of (r_player_id record) (contributions db));
    congruence.
Qed.

Lemma write_rows_none {Row St : Type} (line : Row -> St -> string)
    (rows : dict Row) (sorted : list (Z * St)) :
  write_rows line rows sorted = None <->
  exists id, In id (keys sorted) /\ dict_get id rows = None.
Proof.
  induction sorted as [|[id st] sorted IH]; simpl.
  - split; [discriminate | intros (id & [] & _)].
  - destruct (dict_get id rows) as [row|] eqn:E.
    + destruct (write_rows line rows sorted) as [text|].
      * split; [discriminate|]. intros (id' & [<-|Hin] & Hnone).
        -- congruence.
        -- assert (H : Some text = None) by (apply IH; eauto).
           discriminate.
      * split; [|reflexivity]. intros _.
        destruct (proj1 IH eq_refl) as (id' & Hin & Hnone). eauto.
    + split; [|reflexivity]. intros _. exists id. auto.
Qed.
End Coverage.

(** ** Scanning and stability on doubles *)

Section Scan64.
Local Open Scope float_scope.

Lemma ltb_eqb_apart (a b c : float) :
  (a <? b) = true -> (a =? c) = true -> (b =? c) = false.
Proof. rewrite ltb_spec, !eqb_spec. apply SFltb_eqb_apart. Qed.

(** The running minimum ends on one of the values seen, below all of them. *)
Lemma fold_py_min_bound (t : list float) (m : float) :
  (m =? m) = true -> no_nan t ->
  (fold_left py_min t m <=? m) = true /\
  Forall (fun x => (fold_left py_min t m <=? x) = true) t /\
  In (fold_left py_min t m) (m :: t).
Proof.
  intros Hm Hnan. revert m Hm.
  induction Hnan as [|x t Hx _ IH]; intros m Hm.
  - simpl. split; [now apply eqb_leb_refl|]. split; [constructor | now left].
  - simpl fold_left.
    assert (Hstep : (py_min m x =? py_min m x) = true /\
                    (py_min m x <=? m) = true /\
                    (py_min m x <=? x) = true /\
                    (py_min m x = m \/ py_min m x = x)).
    { unfold py_min. simpl flt. destruct (x <? m) eqn:E.
      - repeat split; auto. + now apply ltb_leb. + now apply eqb_leb_refl.
      - repeat split; auto. + now apply eqb_leb_refl. + now apply leb_total. }
    destruct Hstep as (Hnn & Hle_m & Hle_x & Hor).
    destruct (IH (py_min m x) Hnn) as (Hr & Hall & Hin).
    split; [now apply leb_trans with (py_min m x)|]. split.
    + constructor; [now apply leb_trans with (py_min m x) | assumption].
    + destruct Hin as [Hin|Hin]; [|now right; right].
      rewrite <- Hin. destruct Hor as [-> | ->]; [now left | now right; left].
Qed.

Lemma fold_py_max_bound (t : list float) (m : float) :
  (m =? m) = true -> no_nan t ->
  (m <=? fold_left py_max t m) = true /\
  Forall (fun x => (x <=? fold_left py_max t m) = true) t /\
  In (fold_left py_max t m) (m :: t).
Proof.
  intros Hm Hnan. revert m Hm.
  induction Hnan as [|x t Hx _ IH]; intros m Hm.
  - simpl. split; [now apply eqb_leb_refl|]. split; [constructor | now left].
  - simpl fold_left.
    assert (Hstep : (py_max m x =? py_max m x) = true /\
                    (m <=? py_max m x) = true /\
                    (x <=? py_max m x) = true /\
                    (py_max m x = m \/ py_max m x = x)).
    { unfold py_max. simpl flt. destruct (m <? x) eqn:E.
      - repeat split; auto. + now apply ltb_leb. + now apply eqb_leb_refl.
      - repeat split; auto. + now apply eqb_leb_refl. + now apply leb_total. }
    destruct Hstep as (Hnn & Hle_m & Hle_x & Hor).
    destruct (IH (py_max m x) Hnn) as (Hr & Hall & Hin).
    split; [now apply leb_trans with (py_max m x)|]. split.
    + constructor; [now apply leb_trans with (py_max m x) | assumption].
    + destruct Hin as [Hin|Hin]; [|now right; right].
      rewrite <- Hin. destruct Hor as [-> | ->]; [now left | now right; left].
Qed.

Section Stable.
Context {A : Type} (key : A -> float).

(** Inserting [x] moves it past elements of another score only. *)
Lemma insert_desc_stable (x : A) (l : list A) (s : float) :
  filter (fun e => key e =? s) (insert_desc key x l)
  = filter (fun e => key e =? s) (x :: l).
Proof.
  induction l as [|y l IH]; [reflexivity|].
  cbn [insert_desc].
  destruct (key x [<?] key y) eqn:E; [|reflexivity].
  change ((key x <? key y) = true) in E.
  cbn [filter] in *. rewrite IH.
  destruct (key x =? s) eqn:Ex; [|reflexivity].
  now rewrite (ltb_eqb_apart _ _ _ E Ex).
Qed.

Lemma sort_desc_stable (l : list A) (s : float) :
  filter (fun e => key e =? s) (sort_desc key l)
  = filter (fun e => key e =? s) l.
Proof.
  induction l as [|x l IH]; [reflexivity|].
  cbn [sort_desc fold_right]. fold (sort_desc key l).
  rewrite insert_desc_stable. cbn [filter]. now rewrite IH.
Qed.
End Stable.
End Scan64.

(** ** What a map's statistics read of its records *)

Section TimesOnly.
Context {F : Type} {num : Arith F} {libm : Libm F}.
Implicit Types (stats : MapStat.t F) (first record : RecordRow).

Lemma enumerate_map {A B : Type} (f : A -> B) (l : list A) :
  enumerate (map f l) = map (fun ir => (fst ir, f (snd ir))) (enumerate l).
Proof.
  unfold enumerate. rewrite length_map. generalize 0%nat.
  induction l as [|x l IH]; intros start; simpl; [reflexivity|].
  now rewrite IH.
Qed.

(** The finalized statistics, field by field. *)
Lemma score_map_unfold first (l : list RecordRow) ps :
  fst (score_map first l ps)
  = MapStat.mk
      (MapStat.records_count (map_stat first l))
      (MapStat.min_record (map_stat first l))
      (MapStat.average_record (map_stat first l))
      (MapStat.median_record (map_stat first l))
      (MapStat.max_record (map_stat first l))
      (fold_left fadd
         (map (fun ir => record_score (map_stat first l) (fst ir) (snd ir))
            (enumerate l))
         (of_int 0)).
Proof.
  pose proof (score_map_same_times first l ps) as (A & B & C & D & E).
  pose proof (score_loop_total (enumerate l) (map_stat first l) ps) as Hs.
  fold (score_map first l ps) in Hs.
  destruct (fst (score_map first l ps)) as [c mn av md mx sc].
  cbn [MapStat.records_count MapStat.min_record MapStat.average_record
       MapStat.median_record MapStat.max_record MapStat.score] in *.
  subst. now rewrite map_stat_unfold.
Qed.

Lemma map_stat_time_only first (l : list RecordRow) :
  map_stat (time_only first) (map time_only l) = map_stat first l.
Proof.
  rewrite !map_stat_unfold, length_map, map_map.
  rewrite (map_nth time_only). reflexivity.
Qed.

Lemma score_map_time_only first (l : list RecordRow) ps ps' :
  fst (score_map (time_only first) (map time_only l) ps')
  = fst (score_map first l ps).
Proof.
  rewrite !score_map_unfold, map_stat_time_only, enumerate_map, map_map.
  reflexivity.
Qed.

Lemma time_only_of_times (l l' : list RecordRow) :
  map r_time l = map r_time l' -> map time_only l = map time_only l'.
Proof.
  intros E.
  assert (G : forall l0 : list RecordRow,
            map time_only l0
            = map (fun time => {| r_id := 0; r_player_id := 0;
                                  r_map_id := 0; r_time := time |})
                (map r_time l0))
    by (intros l0; now rewrite map_map).
  now rewrite (G l), (G l'), E.
Qed.

Lemma finalized_of_times fetch fetch' map_id map_id' stats stats' :
  finalized fetch map_id stats -> finalized fetch' map_id' stats' ->
  map r_time (fetch map_id) = map r_time (fetch' map_id') ->
  stats = stats'.
Proof.
  intros (first & rest & ps & Hf & ->) (first' & rest' & ps' & Hf' & ->) E.
  rewrite Hf, Hf' in E. apply time_only_of_times in E.
  rewrite <- (score_map_time_only first (first :: rest) ps []).
  rewrite <- (score_map_time_only first' (first' :: rest') ps' []).
  simpl map in *.
  assert (E1 : time_only first = time_only first') by congruence.
  assert (E2 : map time_only rest = map time_only rest') by congruence.
  now rewrite E1, E2.
Qed.
End TimesOnly.

(** ** Strict positivity in exact arithmetic *)

Section ExactPositive.
Local Open Scope R_scope.

Lemma log10_pos (x : R) : 1 < x -> 0 < log10 x.
Proof.
  intros Hx. simpl log10. pose proof ln_10_pos.
  apply Rmult_lt_0_compat; [|now apply Rinv_0_lt_compat].
  rewrite <- ln_1. apply ln_increasing; lra.
Qed.

Lemma base_term_pos (rn : Z) : (1 <= rn)%Z -> 0 < base_term rn.
Proof.
  intros Hrn. apply log10_pos.
  change (IZR 1 < IZR (1000 * (rn * rn))). apply IZR_lt. nia.
Qed.

Lemma rank_decay_pos (r rn : Z) : (1 <= r <= rn)%Z -> 0 < rank_decay r rn.
Proof.
  intros Hr. pose proof (ratio_mono rn r r ltac:(lia) ltac:(lia)) as [Hlo _].
  unfold rank_decay.
  change (0 < log10 (IZR rn / IZR r + 1) ^ 3).
  apply pow_lt, log10_pos. lra.
Qed.

Lemma compute_score_pos (r rn : Z) (x average : R) :
  (1 <= r <= rn)%Z -> 0 < compute_score r rn x average.
Proof.
  intros Hr. rewrite compute_score_terms.
  change (0 < (base_term rn + deviation_term x average) * rank_decay r rn).
  apply Rmult_lt_0_compat; [|now apply rank_decay_pos].
  pose proof (base_term_pos rn ltac:(lia)).
  pose proof (deviation_term_nonneg x average). lra.
Qed.

Lemma py_max_at_most (time average : R) :
  time <= average -> py_max time average = average.
Proof. intros H. rewrite py_max_Rmax. now apply Rmax_right. Qed.

Lemma deviation_term_at_average (average : R) :
  deviation_term average average = 0.
Proof.
  unfold deviation_term.
  change (log10 ((average - average) ^ 2 + 1) = 0).
  replace ((average - average) ^ 2 + 1) with 1 by ring. apply log10_1.
Qed.

Lemma fold_add_pos (l : list R) (a : R) :
  Forall (fun x => 0 < x) l -> l <> [] -> 0 <= a -> 0 < fold_left fadd l a.
Proof.
  intros Hall. revert a. induction Hall as [|x l Hx Hall IH]; intros a Hne Ha.
  - congruence.
  - change (fold_left fadd (x :: l) a) with (fold_left fadd l (a + x)).
    destruct l as [|y l]; [simpl; lra|].
    apply IH; [discriminate | lra].
Qed.

Lemma map_contributions_pos fetch map_id (p : Z) (score : R) :
  In (p, score) (map_contributions fetch map_id) -> 0 < score.
Proof.
  unfold map_contributions.
  destruct (fetch map_id) as [|first rest]; [intros []|].
  intros Hin. apply in_map_iff in Hin.
  destruct Hin as ([i record] & E & Hin).
  apply (f_equal snd) in E. cbn [fst snd] in E. subst score.
  apply In_enumerate_iff in Hin.
  assert (i < length (first :: rest))%nat
    by (apply nth_error_Some; congruence).
  unfold record_score. rewrite map_stat_unfold.
  cbn [MapStat.records_count fst snd].
  apply compute_score_pos. lia.
Qed.

Lemma contributions_pos (db : Snapshot) (p : Z) (score : R) :
  In (p, score) (contributions db) -> 0 < score.
Proof.
  unfold contributions. intros Hin. apply in_flat_map in Hin.
  destruct Hin as (item & _ & Hin). now apply map_contributions_pos in Hin.
Qed.
End ExactPositive.

Section ExactDeviation.
Local Open Scope R_scope.


End ExactDeviation.

(** ** The end-to-end example of the specification *)

(** One map with the records 10 s and 20 s: count 2, min 10, max 20,
    average 15, median [t[1]] = 20; the first record scores
    [log10(4000) * log10(3)^3], the second
    [(log10(4000) + log10(26)) * log10(2)^3]; the map's total is their sum
    and each player holds one of them. *)
Example end_to_end_example :
  let score1 :=
    ((sample_log10 4000 + sample_log10 1)
     * sample_pow (sample_log10 3) 3)%float in
  let score2 :=
    ((sample_log10 4000 + sample_log10 26)
     * sample_pow (sample_log10 2) 3)%float in
  all_stats (libm:=sample_libm) example_db
  = ([(7%Z, MapStat.mk 2%Z 10 15 20 20 (0 + score1 + score2))],
     [(1%Z, PlayerStat.mk (0 + score1));
      (2%Z, PlayerStat.mk (0 + score2))])%float.
Proof. reflexivity. Qed.

(** The two files of that example, with every float rendered as [x]. *)
Example end_to_end_reports :
  main (libm:=sample_libm) (fun _ : float => "x"%string) example_db
  = Some
      (("id,login,name,score" ++ newline
        ++ "1,ann,Ann,x" ++ newline
        ++ "2,bob,Bob,x" ++ newline)%string,
       (maps_header ++ "7,M,x,x,x,x,x,x,2" ++ newline)%string).
Proof. reflexivity. Qed.

(** * Part IV: the properties *)

(** C1. For the record at 0-based position [i] (rank [r = i + 1]) of a map
    with [rn] records, the score the loop computes is
    [(log10(1000 * rn^2) + log10((average_record - t)^2 + 1)) * log10(rn/r + 1)^3]
    with [t = max(record_time_seconds, average_record)]; the map's total adds
    exactly these scores; and for a time faster than the average the clamp
    makes the deviation term the one of the average itself, whatever the
    time. *)
Theorem per_record_score {F : Type} {num : Arith F} {libm : Libm F}
    (db : Snapshot) (map_id : Z) (stats : MapStat.t F) :
  dict_get map_id (fst (all_stats db)) = Some stats ->
  let records := records_by_time db map_id in
  let rn := Z.of_nat (length records) in
  let average_record := MapStat.average_record stats in
  (forall (i : nat) (record : RecordRow),
     nth_error records i = Some record ->
     let r := Z.of_nat i + 1 in
     let t := py_max (record_time_sec record) average_record in
     record_score stats i record = score_formula r rn t average_record) /\
  MapStat.score stats
    = fold_left fadd
        (map (fun ir => record_score stats (fst ir) (snd ir))
           (enumerate records))
        (of_int 0) /\
  (forall record : RecordRow,
     (record_time_sec record [<?] average_record) = true ->
     deviation_term (py_max (record_time_sec record) average_record)
       average_record
     = deviation_term average_record average_record).
Proof.
  intros Hstats records rn average_record.
  pose proof (all_stats_finalized db map_id stats Hstats) as Hfin.
  pose proof (finalized_fields _ _ _ Hfin) as (Hcount & _).
  rewrite length_map in Hcount.
  destruct Hfin as (first & rest & ps & Hfetch & Heq).
  repeat split.
  - intros i record _ r t. unfold record_score.
    rewrite compute_score_formula. now rewrite Hcount.
  - subst stats. unfold score_map at 1. rewrite score_loop_total.
    unfold records. rewrite Hfetch.
    replace (MapStat.score (map_stat first (first :: rest))) with (of_int 0)
      by now rewrite map_stat_unfold.
    f_equal. apply map_ext. intros [j r]. simpl.
    symmetry. apply record_score_same_times, score_map_same_times.
  - intros record Hlt. now rewrite py_max_clamps.
Qed.

Lemma per_record_score_witness :
  let stats := (MapStat.mk 2%Z 10 15 20 20 0x1.0e62673585509p-1)%float in
  (forall (i : nat) (record : RecordRow),
     nth_error (records_by_time example_db 7) i = Some record ->
     record_score (libm:=sample_libm) stats i record
     = score_formula (libm:=sample_libm) (Z.of_nat i + 1) 2
         (py_max (record_time_sec record) 15%float) 15%float) /\
  MapStat.score stats
    = fold_left fadd
        (map (fun ir => record_score (libm:=sample_libm) stats (fst ir) (snd ir))
           (enumerate (records_by_time example_db 7)))
        (of_int 0) /\
  (forall record : RecordRow,
     (record_time_sec record [<?] 15%float) = true ->
     deviation_term (libm:=sample_libm)
       (py_max (record_time_sec record) 15%float) 15%float
     = deviation_term (libm:=sample_libm) 15%float 15%float).
Proof.
  apply (per_record_score (libm:=sample_libm) example_db 7). reflexivity.
Defined.

(** C2. For a map whose fetched record list is not empty and whose times in
    seconds are ascending [t1 <= ... <= tn], the finalized [MapStat] exists
    and has [min_record] equal to [t1], [max_record == tn], [average_record]
    equal to the left-to-right float sum of the times divided by [n], and
    [median_record] equal to [t[n // 2]] (0-indexed). *)
Theorem map_stat_of_ascending_times (L : Libm float) (db : Snapshot)
    (map_id : Z) :
  In map_id (keys (maps_dict db)) ->
  seconds db map_id <> [] ->
  ascending (seconds db map_id) ->
  exists stats : MapStat.t float,
    dict_get map_id (fst (all_stats db)) = Some stats /\
    MapStat.min_record stats = nth 0 (seconds db map_id) 0%float /\
    (MapStat.max_record stats
       =? nth (length (seconds db map_id) - 1) (seconds db map_id) 0)%float
      = true /\
    MapStat.average_record stats
      = (fold_left PrimFloat.add (seconds db map_id) 0
         / Z2F (Z.of_nat (length (seconds db map_id))))%float /\
    MapStat.median_record stats
      = nth (length (seconds db map_id) / 2) (seconds db map_id) 0%float.
Proof.
  intros Hin Hne Hasc.
  destruct (all_stats_complete (F:=float) db map_id Hin) as [stats Hstats].
  { intros E. apply Hne. unfold seconds. now rewrite E. }
  exists stats. split; [assumption|].
  apply all_stats_finalized, finalized_fields in Hstats.
  fold (seconds db map_id) in Hstats.
  destruct Hstats as (_ & Hmin & Hmax & Havg & Hmed & _).
  destruct (seconds db map_id) as [|x t] eqn:Et; [congruence|].
  repeat split.
  - rewrite Hmin. simpl hd. simpl nth.
    apply fold_py_min_least, ascending_hd_least, Hasc.
  - rewrite Hmax. simpl hd.
    rewrite nth_pred_length.
    apply fold_py_max_last; [| apply ascending_hd_least |]; auto.
    now apply ascending_cons in Hasc.
  - exact Havg.
  - exact Hmed.
Qed.

Lemma map_stat_of_ascending_times_witness :
  exists stats : MapStat.t float,
    dict_get 7 (fst (all_stats (libm:=sample_libm) example_db)) = Some stats /\
    MapStat.min_record stats = 10%float /\
    (MapStat.max_record stats =? 20)%float = true /\
    MapStat.average_record stats = ((0 + 10 + 20) / 2)%float /\
    MapStat.median_record stats = 20%float.
Proof.
  apply (map_stat_of_ascending_times sample_libm example_db 7).
  - simpl. auto.
  - discriminate.
  - apply ascendingb_spec. reflexivity.
Defined.

(** C3 (as stated, refuted). On the specification's own example, a map with
    the two records 10 s and 20 s, the count is even, the lower of the two
    central values is 10 s, and [median_record] is 20 s. *)
Lemma median_of_two_is_not_the_lower :
  Nat.even (length (seconds example_db 7)) = true /\
  nth (length (seconds example_db 7) / 2 - 1) (seconds example_db 7) 0%float
    = 10%float /\
  exists stats : MapStat.t float,
    dict_get 7 (fst (all_stats (libm:=sample_libm) example_db)) = Some stats /\
    MapStat.median_record stats = 20%float /\
    (MapStat.median_record stats =? 10)%float = false.
Proof.
  split; [reflexivity|]. split; [reflexivity|].
  eexists. split; [reflexivity|]. split; reflexivity.
Qed.

(** C3 (amended). For a map with an even number [n >= 2] of records in
    ascending time order, [median_record] is the time at 0-based index
    [n // 2]: the upper of the two central values [t[n//2 - 1] <= t[n//2]],
    with no averaging of the two. *)
Theorem median_of_even_count_is_upper_central (L : Libm float)
    (db : Snapshot) (map_id : Z) :
  In map_id (keys (maps_dict db)) ->
  seconds db map_id <> [] ->
  ascending (seconds db map_id) ->
  Nat.even (length (seconds db map_id)) = true ->
  exists stats : MapStat.t float,
    dict_get map_id (fst (all_stats db)) = Some stats /\
    MapStat.median_record stats
      = nth (length (seconds db map_id) / 2) (seconds db map_id) 0%float /\
    (nth (length (seconds db map_id) / 2 - 1) (seconds db map_id) 0
       <=? MapStat.median_record stats)%float = true.
Proof.
  intros Hin Hne Hasc Heven.
  destruct (all_stats_complete (F:=float) db map_id Hin) as [stats Hstats].
  { intros E. apply Hne. unfold seconds. now rewrite E. }
  exists stats. split; [assumption|].
  apply all_stats_finalized, finalized_fields in Hstats.
  fold (seconds db map_id) in Hstats.
  destruct Hstats as (_ & _ & _ & _ & Hmed & _).
  split; [assumption|].
  rewrite Hmed. apply Hasc.
  assert (0 < length (seconds db map_id))%nat.
  { destruct (seconds db map_id); [congruence | simpl; lia]. }
  split; [lia|]. apply Nat.div_lt; lia.
Qed.

Lemma median_of_even_count_is_upper_central_witness :
  exists stats : MapStat.t float,
    dict_get 7 (fst (all_stats (libm:=sample_libm) example_db)) = Some stats /\
    MapStat.median_record stats = 20%float /\
    (10 <=? MapStat.median_record stats)%float = true.
Proof.
  apply (median_of_even_count_is_upper_central sample_libm example_db 7).
  - simpl. auto.
  - discriminate.
  - apply ascendingb_spec. reflexivity.
  - reflexivity.
Defined.







(** C7. In both reports the rows are in descending order of score: of any
    two rows the earlier one's score is [>=] the later one's (no score being
    a NaN, which [math.log10] and [**] never return). *)
Theorem reports_are_sorted_by_descending_score (L : Libm float)
    (db : Snapshot) :
  no_nan (map StatTupleKey (snd (all_stats db))) ->
  no_nan (map StatTupleKey (fst (all_stats db))) ->
  descending (map StatTupleKey (sorted_player_stats db)) /\
  descending (map StatTupleKey (sorted_map_stats db)).
Proof.
  intros Hplayers Hmaps. split; apply sorted_descending, sort_desc_sorted;
    assumption.
Qed.

Lemma reports_are_sorted_by_descending_score_witness :
  descending
    (map StatTupleKey (sorted_player_stats (libm:=sample_libm) two_maps_db)) /\
  descending (map StatTupleKey (sorted_map_stats (libm:=sample_libm) two_maps_db)).
Proof.
  apply (reports_are_sorted_by_descending_score sample_libm two_maps_db);
    repeat constructor.
Defined.

(** C8. A map whose fetched record sequence is empty is skipped: it gets no
    [MapStat], both aggregates are what they are without that map, and it
    has no row in the map report.  A player who owns none of the fetched
    records gets no [PlayerStat] and no row in the player report. *)
Theorem empty_map_and_idle_player_are_absent
    {F : Type} {num : Arith F} {libm : Libm F} (db : Snapshot) :
  (forall map_id : Z,
     records_by_time db map_id = [] ->
     dict_get map_id (fst (all_stats db)) = None /\
     all_stats (without_map db map_id) = all_stats db /\
     ~ In map_id (keys (sorted_map_stats db))) /\
  (forall player_id : Z,
     (forall map_id record,
        In map_id (keys (maps_dict db)) ->
        In record (records_by_time db map_id) ->
        r_player_id record <> player_id) ->
     dict_get player_id (snd (all_stats db)) = None /\
     ~ In player_id (keys (sorted_player_stats db))).
Proof.
  split.
  - intros map_id Hempty.
    assert (Hnone : dict_get map_id (fst (all_stats db)) = None).
    { destruct (dict_get map_id (fst (all_stats db))) as [stats|] eqn:E; auto.
      apply all_stats_finalized in E.
      destruct E as (first & rest & _ & Hfetch & _). congruence. }
    repeat split; auto.
    + now apply all_stats_without_map.
    + intros Hin. apply (keys_perm _ _ (sort_desc_perm _ _)) in Hin.
      apply dict_get_In in Hin. contradiction.
  - intros player_id Hidle.
    assert (Hnot : ~ In player_id (keys (snd (all_stats db)))).
    { intros Hin. apply all_stats_players in Hin.
      destruct Hin as (map_id & record & Hm & Hr & Hid).
      exact (Hidle map_id record Hm Hr Hid). }
    split.
    + now apply dict_get_not_In.
    + intros Hin. apply Hnot.
      exact (keys_perm _ _ (sort_desc_perm _ _) _ Hin).
Qed.

Lemma empty_map_and_idle_player_are_absent_witness :
  (dict_get 8 (fst (all_stats (libm:=sample_libm) sparse_db)) = None /\
   all_stats (libm:=sample_libm) (without_map sparse_db 8)
     = all_stats (libm:=sample_libm) sparse_db /\
   ~ In 8 (keys (sorted_map_stats (libm:=sample_libm) sparse_db))) /\
  (dict_get 3 (snd (all_stats (libm:=sample_libm) sparse_db)) = None /\
   ~ In 3 (keys (sorted_player_stats (libm:=sample_libm) sparse_db))).
Proof.
  split.
  - apply (proj1 (empty_map_and_idle_player_are_absent
                     (libm:=sample_libm) sparse_db) 8).
    reflexivity.
  - apply (proj2 (empty_map_and_idle_player_are_absent
                     (libm:=sample_libm) sparse_db) 3).
    intros map_id record Hmap Hrecord.
    simpl in Hmap. destruct Hmap as [<-|[<-|[]]]; simpl in Hrecord.
    + destruct Hrecord as [<-|[<-|[]]]; discriminate.
    + destruct Hrecord.
Defined.

(** C9. Two runs over the same snapshot (the same player rows, the same map
    rows and, for each of those maps, the same ordered record sequence) write
    the same two files, character for character; a run that ends on a failed
    lookup ends so both times. *)
Theorem main_is_deterministic {F : Type} {num : Arith F} {libm : Libm F}
    (float_str : F -> string) (db1 db2 : Snapshot) :
  players_rows db1 = players_rows db2 ->
  maps_rows db1 = maps_rows db2 ->
  (forall map_id, In map_id (map m_id (maps_rows db1)) ->
     records_by_time db1 map_id = records_by_time db2 map_id) ->
  main float_str db1 = main float_str db2.
Proof.
  intros Hplayers Hmaps Hrecords.
  pose proof (all_stats_ext db1 db2 Hmaps Hrecords) as Hstats.
  unfold main, players_report, maps_report.
  unfold sorted_player_stats, sorted_map_stats, players_dict, maps_dict.
  now rewrite Hplayers, Hmaps, Hstats.
Qed.

Lemma main_is_deterministic_witness :
  main (libm:=sample_libm) (fun _ : float => "x"%string) example_db
  = main (libm:=sample_libm) (fun _ : float => "x"%string) example_db_again.
Proof.
  apply main_is_deterministic; try reflexivity.
  intros map_id [<-|[]]. reflexivity.
Defined.




(** * Part V: further properties of the script *)

(** X1. [map_stats] holds exactly the maps of the [maps] dict for which the
    cursor returns a record, once each and in the order of that dict; the
    sort rearranges these entries and neither drops nor repeats one. *)
Theorem map_stats_follow_the_maps_table
    {F : Type} {num : Arith F} {libm : Libm F} (db : Snapshot) :
  keys (fst (all_stats db))
    = filter (has_records (records_by_time db)) (keys (maps_dict db)) /\
  NoDup (keys (fst (all_stats db))) /\
  Permutation (sorted_map_stats db) (fst (all_stats db)).
Proof.
  split; [apply keys_map_stats|]. split.
  - rewrite keys_map_stats. apply NoDup_filter, NoDup_keys_dict_of_rows.
  - apply sort_desc_perm.
Qed.

(** X2. A player's [PlayerStat.score] is the sum, added left to right from
    [0.0] in processing order (map after map, rank after rank), of the scores
    of the records that player owns; a player who owns none has no
    [PlayerStat]. *)
Theorem player_total_adds_own_scores_in_order
    {F : Type} {num : Arith F} {libm : Libm F} (db : Snapshot)
    (player_id : Z) :
  dict_get player_id (snd (all_stats db))
  = match scores_of player_id (contributions db) with
    | [] => None
    | score :: scores =>
        Some (PlayerStat.mk (fold_left fadd (score :: scores) (of_int 0)))
    end.
Proof.
  rewrite all_stats_contributions, dict_get_add_contributions.
  simpl dict_get. rewrite fold_add_to_none.
  now destruct (scores_of player_id (contributions db)).
Qed.

(** X3. [player_stats] lists the players in the order their first record is
    scored, each once; the sort rearranges these entries and neither drops nor
    repeats one. *)
Theorem player_stats_follow_first_records
    {F : Type} {num : Arith F} {libm : Libm F} (db : Snapshot) :
  keys (snd (all_stats db)) = first_seen (map fst (contributions db)) /\
  NoDup (keys (snd (all_stats db))) /\
  Permutation (sorted_player_stats db) (snd (all_stats db)).
Proof.
  rewrite all_stats_contributions. split; [apply keys_add_contributions|].
  split.
  - apply NoDup_keys_add_contributions. constructor.
  - unfold sorted_player_stats. rewrite all_stats_contributions.
    apply sort_desc_perm.
Qed.

(** X4. The script ends on a [KeyError], with no complete pair of reports,
    exactly when some fetched record of a listed map names a player who is
    not in the [players] dict; the lookup [maps[map_id]] of the map report
    never fails. *)
Theorem main_fails_exactly_on_unknown_player
    {F : Type} {num : Arith F} {libm : Libm F}
    (float_str : F -> string) (db : Snapshot) :
  maps_report float_str db <> None /\
  (main float_str db = None <->
   exists map_id record,
     In map_id (keys (maps_dict db)) /\
     In record (records_by_time db map_id) /\
     dict_get (r_player_id record) (players_dict db) = None).
Proof.
  assert (Hmaps : maps_report float_str db <> None).
  { unfold maps_report.
    destruct (write_rows (map_line float_str) (maps_dict db)
                (sorted_map_stats db)) eqn:E; [discriminate|].
    apply write_rows_none in E. destruct E as (id & Hin & Hnone).
    apply (keys_perm _ _ (sort_desc_perm _ _)) in Hin.
    rewrite keys_map_stats in Hin. apply filter_In in Hin.
    destruct Hin as [Hin _]. apply dict_get_In in Hin. contradiction. }
  split; [assumption|].
  unfold main. destruct (maps_report float_str db); [|congruence].
  unfold players_report.
  destruct (write_rows (player_line float_str) (players_dict db)
              (sorted_player_stats db)) eqn:E.
  - split; [discriminate|]. intros (map_id & record & Hm & Hr & Hnone).
    assert (Hw : write_rows (player_line float_str) (players_dict db)
                   (sorted_player_stats db) = None).
    { apply write_rows_none. exists (r_player_id record).
      split; [|assumption].
      apply (keys_perm _ _ (Permutation_sym (sort_desc_perm _ _))).
      now apply all_stats_has_player with map_id. }
    congruence.
  - split; [|reflexivity]. intros _.
    apply write_rows_none in E. destruct E as (id & Hin & Hnone).
    apply (keys_perm _ _ (sort_desc_perm _ _)) in Hin.
    apply all_stats_players in Hin.
    destruct Hin as (map_id & record & Hm & Hr & <-).
    exists map_id, record. auto.
Qed.

Lemma main_fails_exactly_on_unknown_player_witness :
  main (libm:=sample_libm) (fun _ : float => "x"%string) orphan_db = None.
Proof.
  apply (proj2 (main_fails_exactly_on_unknown_player
                  (libm:=sample_libm) (fun _ : float => "x"%string)
                  orphan_db)).
  exists 7, (row 2 9 7 20000). repeat split; simpl; auto.
Defined.

(** X5. In the [players] and [maps] dicts an id maps to the last row fetched
    with that id (a repeated id keeps only its last row), and to nothing when
    no row has it. *)
Theorem table_dicts_keep_the_last_row (db : Snapshot) (id : Z) :
  dict_get id (players_dict db)
    = find (fun row => p_id row =? id) (rev (players_rows db)) /\
  dict_get id (maps_dict db)
    = find (fun row => m_id row =? id) (rev (maps_rows db)).
Proof.
  unfold players_dict, maps_dict, dict_of_rows.
  rewrite !dict_get_fold_rows. simpl dict_get.
  split.
  - now destruct (find (fun row => p_id row =? id) (rev (players_rows db))).
  - now destruct (find (fun row => m_id row =? id) (rev (maps_rows db))).
Qed.

(** X6. Whatever the order of a map's records, as long as no time is a NaN:
    [min_record] and [max_record] are times of the map, every time of the map
    lies between them, and so does [median_record]. *)
Theorem min_and_max_bound_every_time (L : Libm float) (db : Snapshot)
    (map_id : Z) (stats : MapStat.t float) :
  dict_get map_id (fst (all_stats db)) = Some stats ->
  no_nan (seconds db map_id) ->
  In (MapStat.min_record stats) (seconds db map_id) /\
  In (MapStat.max_record stats) (seconds db map_id) /\
  Forall (fun t => (MapStat.min_record stats <=? t)%float = true /\
                   (t <=? MapStat.max_record stats)%float = true)
    (seconds db map_id) /\
  (MapStat.min_record stats <=? MapStat.median_record stats)%float = true /\
  (MapStat.median_record stats <=? MapStat.max_record stats)%float = true.
Proof.
  intros Hstats Hnan.
  apply all_stats_finalized, finalized_fields in Hstats.
  fold (seconds db map_id) in Hstats.
  destruct Hstats as (_ & Hmin & Hmax & _ & Hmed & Hne).
  destruct (seconds db map_id) as [|x t] eqn:Et; [congruence|].
  simpl hd in *.
  assert (Hx : (x =? x)%float = true) by now inversion Hnan.
  destruct (fold_py_min_bound (x :: t) x Hx Hnan) as (_ & Hlo & Hin_lo).
  destruct (fold_py_max_bound (x :: t) x Hx Hnan) as (_ & Hhi & Hin_hi).
  rewrite <- Hmin in Hlo, Hin_lo. rewrite <- Hmax in Hhi, Hin_hi.
  assert (Hall : Forall
            (fun t0 => (MapStat.min_record stats <=? t0)%float = true /\
                       (t0 <=? MapStat.max_record stats)%float = true)
            (x :: t)).
  { rewrite Forall_forall in *. intros y Hy. split; auto. }
  assert (Hin_med : In (MapStat.median_record stats) (x :: t)).
  { rewrite Hmed. apply nth_In. apply Nat.div_lt; simpl; lia. }
  repeat split.
  - destruct Hin_lo as [<-|H]; [now left | exact H].
  - destruct Hin_hi as [<-|H]; [now left | exact H].
  - exact Hall.
  - rewrite Forall_forall in Hall. now apply Hall.
  - rewrite Forall_forall in Hall. now apply Hall.
Qed.

Lemma min_and_max_bound_every_time_witness :
  exists stats : MapStat.t float,
    dict_get 7 (fst (all_stats (libm:=sample_libm) shuffled_db)) = Some stats /\
    MapStat.min_record stats = 10%float /\
    MapStat.max_record stats = 30%float /\
    In (MapStat.min_record stats) (seconds shuffled_db 7) /\
    In (MapStat.max_record stats) (seconds shuffled_db 7) /\
    Forall (fun t => (MapStat.min_record stats <=? t)%float = true /\
                     (t <=? MapStat.max_record stats)%float = true)
      (seconds shuffled_db 7) /\
    (MapStat.min_record stats <=? MapStat.median_record stats)%float = true /\
    (MapStat.median_record stats <=? MapStat.max_record stats)%float = true.
Proof.
  eexists. split; [reflexivity|]. split; [reflexivity|].
  split; [reflexivity|].
  apply (min_and_max_bound_every_time sample_libm shuffled_db 7).
  - reflexivity.
  - repeat constructor.
Defined.

(** X7. A map's finalized [MapStat], score included, is a function of the
    times of its records in their fetched order alone: two maps, of the same
    run or of two runs, whose record times agree have equal [MapStat]s,
    whoever owns the records and whatever else is in the tables. *)
Theorem map_stat_reads_only_the_times
    {F : Type} {num : Arith F} {libm : Libm F} (db1 db2 : Snapshot)
    (id1 id2 : Z) (stats1 stats2 : MapStat.t F) :
  dict_get id1 (fst (all_stats db1)) = Some stats1 ->
  dict_get id2 (fst (all_stats db2)) = Some stats2 ->
  map r_time (records_by_time db1 id1) = map r_time (records_by_time db2 id2) ->
  stats1 = stats2.
Proof.
  intros H1 H2 Htimes.
  apply all_stats_finalized in H1. apply all_stats_finalized in H2.
  exact (finalized_of_times _ _ _ _ _ _ H1 H2 Htimes).
Qed.

Lemma map_stat_reads_only_the_times_witness :
  exists stats1 stats2 : MapStat.t float,
    dict_get 1 (fst (all_stats (libm:=sample_libm) two_maps_db))
      = Some stats1 /\
    dict_get 2 (fst (all_stats (libm:=sample_libm) two_maps_db))
      = Some stats2 /\
    stats1 = stats2.
Proof.
  eexists. eexists. split; [reflexivity|]. split; [reflexivity|].
  apply (map_stat_reads_only_the_times (libm:=sample_libm)
           two_maps_db two_maps_db 1 2); reflexivity.
Defined.

(** X8. In exact arithmetic, a record whose time is at most the map's
    average (equal to it included) has deviation term 0, so its score is
    [log10(1000 * rn^2) * log10(rn/r + 1)^3]. *)
Theorem record_no_slower_than_average_has_no_deviation (db : Snapshot)
    (map_id : Z) (stats : MapStat.t R) (i : nat) (record : RecordRow) :
  dict_get map_id (fst (all_stats db)) = Some stats ->
  nth_error (records_by_time db map_id) i = Some record ->
  (record_time_sec record <= MapStat.average_record stats)%R ->
  deviation_term
    (py_max (record_time_sec record) (MapStat.average_record stats))
    (MapStat.average_record stats) = 0%R /\
  record_score stats i record
  = (base_term (Z.of_nat (length (records_by_time db map_id)))
     * rank_decay (Z.of_nat i + 1)
         (Z.of_nat (length (records_by_time db map_id))))%R.
Proof.
  intros Hstats Hrecord Hle.
  apply all_stats_finalized, finalized_fields in Hstats.
  destruct Hstats as (Hcount & _). rewrite length_map in Hcount.
  rewrite (py_max_at_most _ _ Hle), deviation_term_at_average.
  split; [reflexivity|].
  unfold record_score. rewrite compute_score_terms, Hcount.
  rewrite (py_max_at_most _ _ Hle), deviation_term_at_average.
  change (((base_term (Z.of_nat (length (records_by_time db map_id))) + 0)
           * rank_decay (Z.of_nat i + 1)
               (Z.of_nat (length (records_by_time db map_id))))%R
          = (base_term (Z.of_nat (length (records_by_time db map_id)))
             * rank_decay (Z.of_nat i + 1)
                 (Z.of_nat (length (records_by_time db map_id))))%R).
  ring.
Qed.

Lemma record_no_slower_than_average_has_no_deviation_witness :
  exists stats : MapStat.t R,
    dict_get 7 (fst (all_stats example_db)) = Some stats /\
    deviation_term
      (py_max (record_time_sec (row 1 1 7 10000))
         (MapStat.average_record stats))
      (MapStat.average_record stats) = 0%R /\
    record_score stats 0 (row 1 1 7 10000)
    = (base_term 2 * rank_decay 1 2)%R.
Proof.
  eexists. split; [reflexivity|].
  apply (record_no_slower_than_average_has_no_deviation example_db 7).
  - reflexivity.
  - reflexivity.
  - cbn. lra.
Defined.

(** X9. In exact arithmetic every total is strictly positive: the [score] of
    every [MapStat] in [map_stats] and of every [PlayerStat] in
    [player_stats] is [> 0]. *)
Theorem every_total_is_positive (db : Snapshot) :
  (forall (map_id : Z) (stats : MapStat.t R),
     dict_get map_id (fst (all_stats db)) = Some stats ->
     (0 < MapStat.score stats)%R) /\
  (forall (player_id : Z) (player_stats : PlayerStat.t R),
     dict_get player_id (snd (all_stats db)) = Some player_stats ->
     (0 < PlayerStat.score player_stats)%R).
Proof.
  split.
  - intros map_id stats Hstats. apply all_stats_finalized in Hstats.
    destruct Hstats as (first & rest & ps & Hfetch & ->).
    rewrite score_map_unfold. cbn [MapStat.score].
    apply fold_add_pos; [| |simpl; lra].
    + apply Forall_forall. intros score Hin. apply in_map_iff in Hin.
      destruct Hin as (ir & <- & Hin).
      apply (map_contributions_pos (fun _ => first :: rest) 0
               (r_player_id (snd ir))).
      unfold map_contributions. apply in_map_iff. exists ir. auto.
    + discriminate.
  - intros player_id player_stats Hget.
    rewrite all_stats_contributions, dict_get_add_contributions in Hget.
    simpl dict_get in Hget. rewrite fold_add_to_none in Hget.
    destruct (scores_of player_id (contributions db)) as [|s ss] eqn:E;
      [discriminate|].
    injection Hget as <-. cbn [PlayerStat.score].
    change (0 < fold_left fadd (s :: ss) 0)%R.
    apply fold_add_pos; [|discriminate|lra].
    rewrite <- E. apply Forall_forall. intros score Hin.
    unfold scores_of in Hin. apply in_map_iff in Hin.
    destruct Hin as ([p s'] & <- & Hin). apply filter_In in Hin.
    destruct Hin as [Hin _]. exact (contributions_pos db p s' Hin).
Qed.

Lemma every_total_is_positive_witness :
  exists (stats : MapStat.t R) (player_stats : PlayerStat.t R),
    dict_get 7 (fst (all_stats example_db)) = Some stats /\
    dict_get 2 (snd (all_stats example_db)) = Some player_stats /\
    (0 < MapStat.score stats)%R /\
    (0 < PlayerStat.score player_stats)%R.
Proof.
  eexists. eexists. split; [reflexivity|]. split; [reflexivity|]. split.
  - apply (proj1 (every_total_is_positive example_db) 7). reflexivity.
  - apply (proj2 (every_total_is_positive example_db) 2). reflexivity.
Defined.

(** X10. For every [MapStat] in [map_stats], [records_count] is the number
    of records fetched for the map and is at least 1, and every rank the
    scoring loop passes to [compute_score] satisfies [1 <= r <= rn]: neither
    [rn / r], nor the division of the mean, nor [score / records_count] of
    the map report divides by zero. *)
Theorem count_and_ranks_are_positive
    {F : Type} {num : Arith F} {libm : Libm F} (db : Snapshot)
    (map_id : Z) (stats : MapStat.t F) :
  dict_get map_id (fst (all_stats db)) = Some stats ->
  MapStat.records_count stats
    = Z.of_nat (length (records_by_time db map_id)) /\
  1 <= MapStat.records_count stats /\
  (forall (i_record : nat) (record : RecordRow),
     In (i_record, record) (enumerate (records_by_time db map_id)) ->
     record = nth i_record (records_by_time db map_id) record /\
     1 <= Z.of_nat i_record + 1 <= MapStat.records_count stats).
Proof.
  intros Hstats. apply all_stats_finalized, finalized_fields in Hstats.
  destruct Hstats as (Hcount & _ & _ & _ & _ & Hne).
  rewrite length_map in Hcount. split; [assumption|]. split.
  - rewrite Hcount.
    destruct (records_by_time db map_id);
      [exfalso; apply Hne; reflexivity | simpl; lia].
  - intros i record Hin. apply In_enumerate_iff in Hin.
    assert (i < length (records_by_time db map_id))%nat
      by (apply nth_error_Some; congruence).
    split; [|lia]. symmetry. now apply nth_error_nth.
Qed.

Lemma count_and_ranks_are_positive_witness :
  exists stats : MapStat.t float,
    dict_get 7 (fst (all_stats (libm:=sample_libm) example_db)) = Some stats /\
    MapStat.records_count stats = 2 /\
    1 <= MapStat.records_count stats /\
    (forall (i_record : nat) (record : RecordRow),
       In (i_record, record) (enumerate (records_by_time example_db 7)) ->
       record = nth i_record (records_by_time example_db 7) record /\
       1 <= Z.of_nat i_record + 1 <= MapStat.records_count stats).
Proof.
  eexists. split; [reflexivity|].
  apply (count_and_ranks_are_positive (libm:=sample_libm) example_db 7).
  reflexivity.
Defined.

(** X11. The sort is stable: in each report the entries that share a score
    stand in the order they have in the dict, which is the order of the
    [maps] dict for maps and of first scored record for players. *)
Theorem equal_scores_keep_dict_order (L : Libm float) (db : Snapshot)
    (score : float) :
  filter (fun elem => (StatTupleKey elem =? score)%float)
    (sorted_player_stats db)
  = filter (fun elem => (StatTupleKey elem =? score)%float)
      (snd (all_stats db)) /\
  filter (fun elem => (StatTupleKey elem =? score)%float)
    (sorted_map_stats db)
  = filter (fun elem => (StatTupleKey elem =? score)%float)
      (fst (all_stats db)).
Proof. split; apply sort_desc_stable. Qed.


